(** * Bangalore Rent Optimizer: a shallow embedding of [app.py]

    The script loads a rent data set, keeps the listings of one city,
    resolves coordinates through a fixed table, simulates three lifestyle
    columns, filters on two thresholds and ranks the result by a value
    score.

    Conventions of the model.
    - A data frame is the list of its rows, a column (a pandas [Series]) the
      list of its values in row order.  Every frame below is derived from
      one frame read with a fresh index, so pandas' alignment of two columns
      by index label is alignment by position.
    - A [float64] value is an exact rational or one of the IEEE specials;
      rounding, overflow and the sign of zero are not modelled.
    - numpy's global generator is an interface: its stream of draws is a
      parameter, the intervals its draws fall in are its documented ones. *)

From Stdlib Require Import ZArith QArith List String Ascii Bool Lia Lqa.
From Stdlib Require Import Sorted Permutation.
Import ListNotations.

Set Implicit Arguments.

(** ** float64 *)

Module Float.

Inductive float : Type :=
| Fin (q : Q)
| PInf
| NInf
| NaN.

Definition of_int (z : Z) : float := Fin (inject_Z z).

Definition is_finite (x : float) : bool :=
  match x with Fin _ => true | _ => false end.

Definition isna (x : float) : bool :=
  match x with NaN => true | _ => false end.

(** Sign of a value as a comparison with zero; [Eq] for zero and for NaN. *)
Definition sign (x : float) : comparison :=
  match x with
  | Fin q => q ?= 0
  | PInf => Gt
  | NInf => Lt
  | NaN => Eq
  end.

Definition sign_mul (a b : comparison) : comparison :=
  match a, b with
  | Eq, _ | _, Eq => Eq
  | Gt, Gt | Lt, Lt => Gt
  | Gt, Lt | Lt, Gt => Lt
  end.

(** The infinity of a given sign; a product or quotient without a sign
    (infinity times zero, zero over zero) is NaN. *)
Definition inf_of (c : comparison) : float :=
  match c with Gt => PInf | Lt => NInf | Eq => NaN end.

Definition add (x y : float) : float :=
  match x, y with
  | NaN, _ | _, NaN => NaN
  | Fin a, Fin b => Fin (a + b)
  | PInf, NInf | NInf, PInf => NaN
  | PInf, _ | _, PInf => PInf
  | NInf, _ | _, NInf => NInf
  end.

Definition mul (x y : float) : float :=
  match x, y with
  | NaN, _ | _, NaN => NaN
  | Fin a, Fin b => Fin (a * b)
  | _, _ => inf_of (sign_mul (sign x) (sign y))
  end.

(** numpy's true division: a zero divisor gives an infinity (or NaN for
    zero over zero), it does not raise. *)
Definition div (x y : float) : float :=
  match x, y with
  | NaN, _ | _, NaN => NaN
  | Fin a, Fin b => if Qeq_bool b 0 then inf_of (a ?= 0) else Fin (a / b)
  | Fin _, _ => Fin 0
  | _, Fin b => inf_of (sign_mul (sign x) (if Qeq_bool b 0 then Gt else b ?= 0))
  | _, _ => NaN
  end.

(** [x <= y]; every comparison with NaN is false. *)
Definition leb (x y : float) : bool :=
  match x, y with
  | NaN, _ | _, NaN => false
  | Fin a, Fin b => Qle_bool a b
  | NInf, _ => true
  | _, PInf => true
  | _, _ => false
  end.

Definition geb (x y : float) : bool := leb y x.

Definition le (x y : float) : Prop := leb x y = true.
Definition ge (x y : float) : Prop := geb x y = true.

End Float.

Import Float.

(** ** Columns *)

Section Series.
Context {A B C : Type}.

(** [df[name]]: one column of a frame. *)
Definition col {R : Type} (field : R -> A) (df : list R) : list A :=
  map field df.

(** An elementwise binary operation of two columns of one frame. *)
Definition zip_with (f : A -> B -> C) (xs : list A) (ys : list B) : list C :=
  map (fun p => f (fst p) (snd p)) (combine xs ys).

(** [df[mask]]: the rows whose mask entry is [True], in order. *)
Definition mask_rows (df : list A) (mask : list bool) : list A :=
  map fst (filter snd (combine df mask)).

End Series.

(** Elementwise arithmetic of [Series]: with a scalar on the right
    ([s * c], [s / c]), with a scalar on the left ([c / s]) and with
    another column. *)
Definition s_mul_c (s : list float) (c : float) : list float :=
  map (fun x => mul x c) s.
Definition s_div_c (s : list float) (c : float) : list float :=
  map (fun x => div x c) s.
Definition c_div_s (c : float) (s : list float) : list float :=
  map (fun x => div c x) s.
Definition s_add (s t : list float) : list float := zip_with add s t.
Definition s_div (s t : list float) : list float := zip_with div s t.
Definition s_and (s t : list bool) : list bool := zip_with andb s t.

(** ** Rows *)

(** A row of [House_Rent_Dataset.csv], with the columns the script names. *)
Record Listing : Type := {
  Posted_On : string;
  BHK : Z;
  Rent : Z;
  Size : Z;
  Area_Locality : string;
  City : string;
  Furnishing_Status : string
}.

(** A row after [df['lat'], df['lon'] = ...]. *)
Record Located : Type := {
  loc_listing : Listing;
  loc_lat : float;
  loc_lon : float
}.

(** A row of the frame [load_data] returns. *)
Record Enriched : Type := {
  listing : Listing;
  lat : float;
  lon : float;
  Cafes : float;
  Safety_Score : float;
  Metro_Dist_KM : float
}.

(** A row of [filtered_df] once [Value_Score] is assigned. *)
Record Scored : Type := {
  enriched : Enriched;
  Value_Score : float
}.

Definition rent (r : Enriched) : Z := Rent (listing r).

(** ** numpy's global generator *)

(** [np.random]: the state of the global generator, [np.random.seed],
    and one draw of [np.random.randint] and of [np.random.uniform], which
    returns the value drawn and the next state. *)
Class RandomState : Type := {
  rng : Type;
  seed : Z -> rng;
  randint : Z -> Z -> rng -> Z * rng;
  uniform : Q -> Q -> rng -> Q * rng
}.

(** What numpy documents of the two draws: [randint low high] is an integer
    of the half-open interval from [low] (inclusive) to [high] (exclusive);
    [uniform low high] lies between [low] and [high]. *)
Class RandomStateSpec (G : RandomState) : Prop := {
  randint_range : forall low high s,
    (low < high)%Z -> (low <= fst (randint low high s) < high)%Z;
  uniform_range : forall low high s,
    low <= high -> low <= fst (uniform low high s) <= high
}.

(** ** Errors *)

Inductive exn : Type :=
| ValueError
| IndexError.

Inductive result (A : Type) : Type :=
| Ok (a : A)
| Raise (e : exn).

Arguments Ok {A} a.
Arguments Raise {A} e.

Definition result_map {A B : Type} (f : A -> B) (r : result A) : result B :=
  match r with
  | Ok a => Ok (f a)
  | Raise e => Raise e
  end.

(** ** Text *)

(** [str.lower], on ASCII text. *)
Definition lower_ascii (c : ascii) : ascii :=
  let n := nat_of_ascii c in
  if ((65 <=? n) && (n <=? 90))%nat then ascii_of_nat (n + 32) else c.

Fixpoint lower (s : string) : string :=
  match s with
  | EmptyString => EmptyString
  | String c t => String (lower_ascii c) (lower t)
  end.

(** [sub in s]: [sub] occurs in [s] as a contiguous run. *)
Fixpoint str_in (sub s : string) : bool :=
  prefix sub s ||
  match s with
  | EmptyString => false
  | String _ t => str_in sub t
  end.

(** ** Step 1: load real data *)

(** [loc_map]; a dict iterates over its keys in insertion order. *)
Definition loc_map : list (string * (Q * Q)) :=
  [ ("Koramangala",     (12.9345, 77.6186));
    ("HSR Layout",      (12.9121, 77.6446));
    ("Whitefield",      (12.9698, 77.7500));
    ("Indiranagar",     (12.9784, 77.6408));
    ("Jayanagar",       (12.9304, 77.5855));
    ("Marathahalli",    (12.9591, 77.6974));
    ("Electronic City", (12.8399, 77.6770));
    ("BTM Layout",      (12.9166, 77.6101));
    ("Hebbal",          (13.0354, 77.5988));
    ("Yelahanka",       (13.1007, 77.5963));
    ("Bellandur",       (12.9260, 77.6762));
    ("Sarjapur",        (12.9237, 77.6546));
    ("Basavanagudi",    (12.9438, 77.5755));
    ("Malleswaram",     (13.0031, 77.5643)) ]%string.

Section Load.
Context {G : RandomState}.

(** [n] successive draws: the array a draw with [size=n] returns. *)
Fixpoint draw {A : Type} (one : rng -> A * rng) (size : nat) (s : rng)
  : list A * rng :=
  match size with
  | O => ([], s)
  | S n =>
      let (x, s1) := one s in
      let (xs, s2) := draw one n s1 in
      (x :: xs, s2)
  end.

(** [get_coords]: the loop over the keys still to be visited. *)
Fixpoint get_coords_from (keys : list (string * (Q * Q))) (area_text : string)
  (s : rng) : (float * float) * rng :=
  match keys with
  | [] => ((NaN, NaN), s)
  | (key, (la, lo)) :: rest =>
      if str_in (lower key) (lower area_text) then
        let (j1, s1) := uniform (-0.01) 0.01 s in
        let (j2, s2) := uniform (-0.01) 0.01 s1 in
        ((Fin (la + j1), Fin (lo + j2)), s2)
      else get_coords_from rest area_text s
  end.

Definition get_coords : string -> rng -> (float * float) * rng :=
  get_coords_from loc_map.

(** [Series.apply(get_coords)]: the rows in order, each call continuing
    from the generator state the previous one left. *)
Fixpoint apply_get_coords (areas : list string) (s : rng)
  : list (float * float) * rng :=
  match areas with
  | [] => ([], s)
  | a :: rest =>
      let (c, s1) := get_coords a s in
      let (cs, s2) := apply_get_coords rest s1 in
      (c :: cs, s2)
  end.

(** [lats, lons = zip( *pairs )]: unpacking fails when there is no pair,
    as [zip()] then yields nothing. *)
Definition unzip_coords (pairs : list (float * float))
  : result (list float * list float) :=
  match pairs with
  | [] => Raise ValueError
  | _ => Ok (map fst pairs, map snd pairs)
  end.

Definition assign_coords (df : list Listing) (lats lons : list float)
  : list Located :=
  zip_with (fun r c => {| loc_listing := r; loc_lat := fst c; loc_lon := snd c |})
           df (combine lats lons).

(** [df.dropna(subset=['lat'])] *)
Definition dropna_lat (df : list Located) : list Located :=
  filter (fun r => negb (isna (loc_lat r))) df.

Definition assign_simulated (df : list Located) (cafes safety metro : list float)
  : list Enriched :=
  zip_with (fun r v =>
              {| listing := loc_listing r; lat := loc_lat r; lon := loc_lon r;
                 Cafes := fst v; Safety_Score := fst (snd v);
                 Metro_Dist_KM := snd (snd v) |})
           df (combine cafes (combine safety metro)).

(** Step 3 of [load_data], on the rows of the one city: [s0] is the state
    the global generator is in when [load_data] is entered.  The state the
    jitter leaves is not read again, as step 4 seeds the generator anew. *)
Definition create_coordinates (df : list Listing) (s0 : rng)
  : result (list Located) :=
  let (pairs, _) := apply_get_coords (col Area_Locality df) s0 in
  match unzip_coords pairs with
  | Raise e => Raise e
  | Ok (lats, lons) => Ok (dropna_lat (assign_coords df lats lons))
  end.

(** Step 4 of [load_data]. *)
Definition simulate_lifestyle (df : list Located) : list Enriched :=
  let s := seed 42 in
  let (offsets, s) := draw (randint 5 30) (List.length df) s in
  let cafes :=
    s_add (s_div_c (map of_int (col (fun r => Rent (loc_listing r)) df))
                   (of_int 1500))
          (map of_int offsets) in
  let (safety, s) := draw (uniform 6.5 9.8) (List.length df) s in
  let (metro, _) := draw (uniform 0.5 10.0) (List.length df) s in
  assign_simulated df cafes (map Fin safety) (map Fin metro).

(** Steps 3 and 4: the enrichment of the rows of the one city. *)
Definition enrich (df : list Listing) (s0 : rng) : result (list Enriched) :=
  match create_coordinates df s0 with
  | Raise e => Raise e
  | Ok df => Ok (simulate_lifestyle df)
  end.

(** [df[df['City'] == 'Bangalore']] *)
Definition bangalore (df : list Listing) : list Listing :=
  mask_rows df (map (fun c => String.eqb c "Bangalore") (col City df)).

End Load.

(** ** Step 3: the algorithm *)

(** [df[(df['Rent'] <= budget) & (df['Safety_Score'] >= min_safety)]] *)
Definition filter_preferences (budget : Z) (min_safety : Q) (df : list Enriched)
  : list Enriched :=
  mask_rows df
    (s_and (map (fun x => x <=? budget)%Z (col rent df))
           (map (fun x => geb x (Fin min_safety)) (col Safety_Score df))).

(** The column assigned to [filtered_df['Value_Score']]. *)
Definition Value_Score_column (w_cafe w_metro : Q) (filtered_df : list Enriched)
  : list float :=
  s_div
    (s_add
       (s_mul_c (col Cafes filtered_df) (Fin w_cafe))
       (s_mul_c (s_mul_c (c_div_s (of_int 1) (col Metro_Dist_KM filtered_df))
                         (of_int 100))
                (Fin w_metro)))
    (s_div_c (map of_int (col rent filtered_df)) (of_int 1000)).

Definition assign_Value_Score (w_cafe w_metro : Q) (filtered_df : list Enriched)
  : list Scored :=
  zip_with (fun r v => {| enriched := r; Value_Score := v |})
           filtered_df (Value_Score_column w_cafe w_metro filtered_df).

(** The formula of the specification, on the fields of one record. *)
Definition spec_value_score
  (amenity_density amenity_weight transit_distance_km transit_weight price : float)
  : float :=
  div (add (mul amenity_density amenity_weight)
           (mul (mul (div (of_int 1) transit_distance_km) (of_int 100))
                transit_weight))
      (div price (of_int 1000)).

Definition row_value_score (w_cafe w_metro : Q) (r : Enriched) : float :=
  spec_value_score (Cafes r) (Fin w_cafe) (Metro_Dist_KM r) (Fin w_metro)
                   (of_int (rent r)).


(** ** The script as a whole *)

(** The four sliders of the sidebar and the three subheaders of the page,
    named by their labels. *)
Inductive slider : Type :=
| Max_Budget
| Minimum_Safety_Score
| Importance_of_Cafes
| Importance_of_Metro_Proximity.

Inductive heading : Type :=
| Rent_vs_Value_Analysis
| Interactive_Map
| Detailed_Listings.

(** What a run displays, in order.  [run_filter] and [run_score] are not
    Streamlit calls: they mark that line 89 and lines 93 to 96 of the
    script are executed. *)
Inductive event : Type :=
| st_error_csv_not_found
| st_set_page_config
| st_title
| st_markdown
| st_sidebar_header
| st_sidebar_slider (label : slider)
| st_sidebar_subheader
| run_filter
| run_score
| st_columns (n : nat)
| metric_area (value : string)
| metric_rent (value : Z)
| metric_score (value : float)
| st_subheader (text : heading)
| st_plotly_chart_scatter (data : list Scored)
| st_plotly_chart_map (data : list Scored)
| st_dataframe (data : list Scored)
| st_error_no_apartments (budget : Z) (min_safety : Q).

(** How a run ends: at the end of the script, at [st.stop()], or with an
    uncaught exception. *)
Inductive outcome (A : Type) : Type :=
| Done (a : A)
| Stopped
| Crashed (e : exn).

Arguments Done {A} a.
Arguments Stopped {A}.
Arguments Crashed {A} e.

(** A script fragment: its outcome and the events it displays. *)
Definition App (A : Type) : Type := outcome A * list event.

Definition ret {A : Type} (a : A) : App A := (Done a, []).

Definition bind {A B : Type} (m : App A) (k : A -> App B) : App B :=
  match m with
  | (Done a, t) => let (o, t') := k a in (o, t ++ t')
  | (Stopped, t) => (Stopped, t)
  | (Crashed e, t) => (Crashed e, t)
  end.

Definition emit (e : event) : App unit := (Done tt, [e]).
Definition st_stop {A : Type} : App A := (Stopped, []).
Definition lift {A : Type} (r : result A) : App A :=
  match r with
  | Ok a => ret a
  | Raise e => (Crashed e, [])
  end.

Notation "x <- m ;; k" := (bind m (fun x => k))
  (at level 61, m at next level, right associativity).
Notation "m ;; k" := (bind m (fun _ => k))
  (at level 61, right associativity).

(** [df.empty] *)
Definition empty {A : Type} (df : list A) : bool :=
  match df with [] => true | _ => false end.

(** The values the four sliders return. *)
Record Widgets : Type := {
  budget : Z;
  min_safety : Q;
  w_cafe : Q;
  w_metro : Q
}.

(** The bounds the sliders are created with. *)
Definition in_slider_range (w : Widgets) : Prop :=
  (5000 <= budget w <= 100000)%Z /\
  1 <= min_safety w <= 10 /\
  0 <= w_cafe w <= 1 /\
  0 <= w_metro w <= 1.

Section Script.
Context {G : RandomState}.

(** [DataFrame.sort_values(by='Value_Score', ascending=False)], with the
    default [kind]: the sorting algorithm is pandas' and numpy's, not the
    script's, and is a parameter here. *)
Variable sort_values : list Scored -> list Scored.

(** [load_data]: [csv] is the content of [House_Rent_Dataset.csv], or
    [None] when there is no such file. *)
Definition load_data (csv : option (list Listing)) (s0 : rng)
  : App (list Enriched) :=
  match csv with
  | None => emit st_error_csv_not_found ;; ret []
  | Some df => lift (enrich (bangalore df) s0)
  end.

Definition app (csv : option (list Listing)) (s0 : rng) (w : Widgets)
  : App unit :=
  df <- load_data csv s0 ;;
  emit st_set_page_config ;;
  emit st_title ;;
  emit st_markdown ;;
  (if empty df then st_stop else ret tt) ;;
  emit st_sidebar_header ;;
  emit (st_sidebar_slider Max_Budget) ;;
  emit (st_sidebar_slider Minimum_Safety_Score) ;;
  emit st_sidebar_subheader ;;
  emit (st_sidebar_slider Importance_of_Cafes) ;;
  emit (st_sidebar_slider Importance_of_Metro_Proximity) ;;
  emit run_filter ;;
  let filtered_df := filter_preferences (budget w) (min_safety w) df in
  if negb (empty filtered_df) then
    emit run_score ;;
    let filtered_df :=
      sort_values (assign_Value_Score (w_cafe w) (w_metro w) filtered_df) in
    emit (st_columns 3) ;;
    best_match <- lift (match filtered_df with
                        | r :: _ => Ok r
                        | [] => Raise IndexError
                        end) ;;
    emit (metric_area (Area_Locality (listing (enriched best_match)))) ;;
    emit (metric_rent (rent (enriched best_match))) ;;
    emit (metric_score (Value_Score best_match)) ;;
    emit (st_columns 2) ;;
    emit (st_subheader Rent_vs_Value_Analysis) ;;
    emit (st_plotly_chart_scatter filtered_df) ;;
    emit (st_subheader Interactive_Map) ;;
    emit (st_plotly_chart_map filtered_df) ;;
    emit (st_subheader Detailed_Listings) ;;
    emit (st_dataframe filtered_df)
  else
    emit (st_error_no_apartments (budget w) (min_safety w)).

End Script.

(** ** Notions the properties are stated with *)

(** [key] occurs in [text] when case is ignored. *)
Definition contains_ci (key text : string) : Prop :=
  exists pre post : string,
    lower text = (pre ++ lower key ++ post)%string.

(** [(key, (la, lo))] is the first entry of [loc_map], in its order, whose
    key occurs in [text]. *)
Definition first_match (text key : string) (la lo : Q) : Prop :=
  exists before after,
    loc_map = before ++ (key, (la, lo)) :: after /\
    contains_ci key text /\
    forall k c, In (k, c) before -> ~ contains_ci k text.

(** The amenity density of [e] is its price over 1500 plus the integer [n]. *)
Definition amenity_offset (e : Enriched) (n : Z) : Prop :=
  exists c : Q,
    Cafes e = Fin c /\ c - inject_Z (rent e) / 1500 == inject_Z n.

(** A row without its coordinates. *)
Definition without_coords (e : Enriched)
  : Listing * float * float * float :=
  (listing e, Cafes e, Safety_Score e, Metro_Dist_KM e).

Definition coords (e : Enriched) : float * float := (lat e, lon e).

(** The value [x] is a number: neither an infinity nor NaN. *)
Definition numeric (x : float) : Prop := is_finite x = true.

(** A record with positive price, non-negative amenity density and positive
    transit distance. *)
Definition positive_record (r : Enriched) : Prop :=
  exists c d : Q,
    Cafes r = Fin c /\ 0 <= c /\ Metro_Dist_KM r = Fin d /\ 0 < d /\
    (0 < rent r)%Z.

(** [r'] has the amenity density and transit distance of [r] and a price at
    least as high. *)
Definition dearer (r r' : Enriched) : Prop :=
  Cafes r' = Cafes r /\ Metro_Dist_KM r' = Metro_Dist_KM r /\
  (rent r <= rent r')%Z.

(** Some key of [keys] occurs in [area_text], case ignored. *)
Definition resolves_in (keys : list (string * (Q * Q))) (area_text : string)
  : bool :=
  existsb (fun kc => str_in (lower (fst kc)) (lower area_text)) keys.

Definition resolves (r : Listing) : bool :=
  resolves_in loc_map (Area_Locality r).

(** The coordinates [c] are those of the table entry [(la, lo)] up to a
    jitter of at most 0.01 degrees on each axis. *)
Definition jittered (la lo : Q) (c : float * float) : Prop :=
  exists j1 j2 : Q,
    c = (Fin (la + j1), Fin (lo + j2)) /\
    -0.01 <= j1 <= 0.01 /\ -0.01 <= j2 <= 0.01.

(** The entry [v] of the three simulated columns put on the row [r]. *)
Definition simulated_row (r : Located) (v : Z * (Q * Q)) : Enriched := {|
  listing := loc_listing r;
  lat := loc_lat r;
  lon := loc_lon r;
  Cafes := add (div (of_int (Rent (loc_listing r))) (of_int 1500))
               (of_int (fst v));
  Safety_Score := Fin (fst (snd v));
  Metro_Dist_KM := Fin (snd (snd v))
|}.

(** The simulated fields of [simulated_row r v], which the listing of [r]
    and [v] determine. *)
Definition simulated_fields (l : Listing) (v : Z * (Q * Q))
  : Listing * float * float * float :=
  (l, add (div (of_int (Rent l)) (of_int 1500)) (of_int (fst v)),
   Fin (fst (snd v)), Fin (snd (snd v))).

Section Draws.
Context {G : RandomState}.

(** The draws behind the three simulated columns of a frame of [n] rows,
    row by row: amenity offset, safety score, transit distance. *)
Definition simulated_draws (n : nat) : list (Z * (Q * Q)) :=
  let s := seed 42 in
  let (offsets, s) := draw (randint 5 30) n s in
  let (safety, s) := draw (uniform 6.5 9.8) n s in
  let (metro, _) := draw (uniform 0.5 10.0) n s in
  combine offsets (combine safety metro).

End Draws.

(** The bounds of the three draws. *)
Definition draw_in_range (v : Z * (Q * Q)) : Prop :=
  (5 <= fst v < 30)%Z /\
  6.5 <= fst (snd v) <= 9.8 /\
  0.5 <= snd (snd v) <= 10.0.

(** The coordinates of the located row [r] are, up to jitter, those of the
    first entry of [loc_map] whose key occurs in its text. *)
Definition located_ok (r : Located) : Prop :=
  forall key la lo,
    first_match (Area_Locality (loc_listing r)) key la lo ->
    jittered la lo (loc_lat r, loc_lon r).

(** Some key of [loc_map] occurs in the text of [r], case ignored. *)
Definition has_key (r : Listing) : Prop :=
  exists key, In key (map fst loc_map) /\ contains_ci key (Area_Locality r).

(** What a descending sort on [Value_Score] guarantees of its result [out]
    for the frame [df], whatever its algorithm: the same rows, scores in
    non-increasing order. *)
Definition sorted_descending (df out : list Scored) : Prop :=
  Permutation df out /\
  StronglySorted (fun a b => le (Value_Score b) (Value_Score a)) out.

(** The events after which the page shows more than its heading. *)
Definition beyond_message (e : event) : bool :=
  match e with
  | st_error_csv_not_found => false
  | _ => true
  end.

(** ** Generators and data to run the model on *)

Definition lcg_next (s : Z) : Z :=
  ((s * 1103515245 + 12345) mod 2147483648)%Z.

(** A linear congruential generator; [k] shifts the seed. *)
Definition lcg (k : Z) : RandomState := {|
  rng := Z;
  seed := fun n => (n + k)%Z;
  randint := fun low high s => ((low + s mod (high - low))%Z, lcg_next s);
  uniform := fun low high s =>
    (low + (high - low) * (inject_Z (s mod 1000) / 1000), lcg_next s)
|}.

Definition row (area city : string) (price : Z) : Listing := {|
  Posted_On := "2022-05-18";
  BHK := 2;
  Rent := price;
  Size := 1000;
  Area_Locality := area;
  City := city;
  Furnishing_Status := "Semi-Furnished"
|}.

Definition sample_csv : list Listing :=
  [ row "Koramangala Cross" "Bangalore" 30000;
    row "Bandra West" "Mumbai" 90000;
    row "Ulsoor" "Bangalore" 18000;
    row "hsr layout, sector 2" "Bangalore" 24000;
    row "Whitefield Main Road" "Bangalore" 15000 ].

(** The frame enrichment gives on the sample, with the toy generator. *)
Definition sample_enriched : list Enriched :=
  match @enrich (lcg 0) (bangalore sample_csv) 7%Z with
  | Ok out => out
  | Raise _ => []
  end.

(** The record of the end-to-end scenario, at a given price and transit
    distance. *)
Definition scenario_at (price : Z) (distance : Q) : Enriched := {|
  listing := row "Koramangala Cross" "Bangalore" price;
  lat := Fin 12.9345;
  lon := Fin 77.6186;
  Cafes := Fin 20;
  Safety_Score := Fin 8;
  Metro_Dist_KM := Fin distance
|}.

Definition scenario_row : Enriched := scenario_at 30000 2.0.

(** A record at distance zero from transit. *)
Definition zero_distance_row : Enriched := scenario_at 30000 0.

Definition default_widgets : Widgets := {|
  budget := 35000;
  min_safety := 7.0;
  w_cafe := 0.5;
  w_metro := 0.8
|}.

(** Insertion into a list in descending score order, before its equals. *)
Fixpoint insert_desc (x : Scored) (l : list Scored) : list Scored :=
  match l with
  | [] => [x]
  | y :: t =>
      if leb (Value_Score y) (Value_Score x) then x :: l
      else y :: insert_desc x t
  end.

(** One possible [sort_values]: insertion sort. *)
Definition insertion_sort_desc (l : list Scored) : list Scored :=
  fold_right insert_desc [] l.


(** ** Further notions *)

(** The rows [load_data] keeps: those of the one city whose text holds a
    key of [loc_map]. *)
Definition kept (r : Listing) : bool :=
  String.eqb (City r) "Bangalore" && resolves r.

(** The rectangle spanned by the entries of [loc_map], widened by the
    jitter of 0.01 degrees. *)
Definition in_table_box (c : float * float) : Prop :=
  exists la lo : Q,
    c = (Fin la, Fin lo) /\
    12.8299 <= la <= 13.1107 /\ 77.5543 <= lo <= 77.76.

(** The events of lines 70 to 73 and of lines 79 to 85. *)
Definition page_heading : list event :=
  [st_set_page_config; st_title; st_markdown].

Definition sidebar : list event :=
  [st_sidebar_header;
   st_sidebar_slider Max_Budget;
   st_sidebar_slider Minimum_Safety_Score;
   st_sidebar_subheader;
   st_sidebar_slider Importance_of_Cafes;
   st_sidebar_slider Importance_of_Metro_Proximity].

(** The events of lines 102 to 141 for the sorted frame [best :: rest]. *)
Definition ranking (best : Scored) (rest : list Scored) : list event :=
  [st_columns 3;
   metric_area (Area_Locality (listing (enriched best)));
   metric_rent (rent (enriched best));
   metric_score (Value_Score best);
   st_columns 2;
   st_subheader Rent_vs_Value_Analysis;
   st_plotly_chart_scatter (best :: rest);
   st_subheader Interactive_Map;
   st_plotly_chart_map (best :: rest);
   st_subheader Detailed_Listings;
   st_dataframe (best :: rest)].

(** [r'] is [r] with an amenity density at least as high. *)
Definition more_amenities (r r' : Enriched) : Prop :=
  exists c c' : Q,
    Cafes r = Fin c /\ Cafes r' = Fin c' /\ c <= c' /\
    Metro_Dist_KM r' = Metro_Dist_KM r /\ rent r' = rent r.

(** [r'] is [r] at a transit distance at least as long. *)
Definition farther (r r' : Enriched) : Prop :=
  exists d d' : Q,
    Metro_Dist_KM r = Fin d /\ Metro_Dist_KM r' = Fin d' /\ d <= d' /\
    Cafes r' = Cafes r /\ rent r' = rent r.

(** The score [x] is the number zero. *)
Definition is_zero (x : float) : Prop :=
  exists q : Q, x = Fin q /\ q == 0.

(** * Properties *)

(** ** The model at work *)

Example lower_HSR : lower "HSR Layout" = "hsr layout"%string.
Proof. reflexivity. Qed.

Example str_in_layout : str_in "layout" "hsr layout, sector 2" = true.
Proof. reflexivity. Qed.

Example ulsoor_unresolved : resolves (row "Ulsoor" "Bangalore" 18000) = false.
Proof. reflexivity. Qed.

Example sample_enriched_listings :
  map listing sample_enriched =
  [ row "Koramangala Cross" "Bangalore" 30000;
    row "hsr layout, sector 2" "Bangalore" 24000;
    row "Whitefield Main Road" "Bangalore" 15000 ].
Proof. reflexivity. Qed.

Example sample_filtered :
  map listing (filter_preferences 25000 9.0 sample_enriched) =
  [ row "hsr layout, sector 2" "Bangalore" 24000 ].
Proof. reflexivity. Qed.

Example no_bangalore_row_raises :
  @enrich (lcg 0) (bangalore [row "Bandra West" "Mumbai" 90000]) 7%Z =
  Raise ValueError.
Proof. reflexivity. Qed.

(** ** Columns and rationals *)

Lemma zip_with_map {R A B C : Type} (f : A -> B -> C) (g : R -> A) (h : R -> B)
  (l : list R) :
  zip_with f (map g l) (map h l) = map (fun x => f (g x) (h x)) l.
Proof.
  unfold zip_with. induction l as [|x l IH]; simpl; [reflexivity|].
  now rewrite IH.
Qed.

Lemma zip_with_self {R B C : Type} (f : R -> B -> C) (h : R -> B) (l : list R) :
  zip_with f l (map h l) = map (fun x => f x (h x)) l.
Proof.
  rewrite <- (map_id l) at 1. apply zip_with_map.
Qed.

Lemma mask_rows_map {R : Type} (p : R -> bool) (df : list R) :
  mask_rows df (map p df) = filter p df.
Proof.
  unfold mask_rows. induction df as [|x df IH]; simpl; [reflexivity|].
  destruct (p x); simpl; now rewrite IH.
Qed.

Lemma Qdiv_le_compat_r (a b p : Q) : 0 < p -> a <= b -> a / p <= b / p.
Proof.
  intros Hp Hab. unfold Qdiv. apply Qmult_le_compat_r; [assumption|].
  apply Qlt_le_weak, Qinv_lt_0_compat, Hp.
Qed.

Lemma Qdiv_le_antitone (n p p' : Q) :
  0 <= n -> 0 < p -> p <= p' -> n / p' <= n / p.
Proof.
  intros Hn Hp Hpp.
  assert (Hp' : 0 < p') by lra.
  apply Qle_shift_div_l; [assumption|].
  assert (E : n / p' * p == n * (p / p')) by (field; lra).
  rewrite E.
  assert (H : p / p' <= 1) by (apply Qle_shift_div_r; lra).
  generalize dependent (p / p'). intros t _ Ht. nra.
Qed.

Lemma Qeq_bool_nonzero (q : Q) : ~ q == 0 -> Qeq_bool q 0 = false.
Proof.
  intro H. destruct (Qeq_bool q 0) eqn:E; [|reflexivity].
  apply Qeq_bool_eq in E. contradiction.
Qed.

Lemma price_in_thousands_pos (z : Z) :
  (0 < z)%Z -> 0 < inject_Z z / inject_Z 1000.
Proof.
  intro H. apply Qlt_shift_div_l; [reflexivity|].
  rewrite Qmult_0_l. change 0 with (inject_Z 0). now rewrite <- Zlt_Qlt.
Qed.

Lemma price_in_thousands_nonzero (z : Z) :
  z <> 0%Z -> ~ inject_Z z / inject_Z 1000 == 0.
Proof.
  intros H E. apply H.
  assert (E' : inject_Z z == inject_Z 0).
  { assert (inject_Z z == inject_Z z / inject_Z 1000 * inject_Z 1000)
      by (field; discriminate).
    rewrite E in H0. rewrite H0. reflexivity. }
  apply (proj1 (inject_Z_injective z 0)), E'.
Qed.

(** ** The value scorer *)

(** The column the script computes holds, row by row, the formula of the
    specification. *)
Lemma Value_Score_column_rows (wc wm : Q) (df : list Enriched) :
  Value_Score_column wc wm df = map (row_value_score wc wm) df.
Proof.
  unfold Value_Score_column, s_div, s_add, s_mul_c, s_div_c, c_div_s, col.
  rewrite !map_map.
  rewrite (zip_with_map add). rewrite (zip_with_map div).
  reflexivity.
Qed.

(** On a record with numeric fields, a non-zero distance and a non-zero
    price, the score is the rational the formula denotes. *)
Lemma row_value_score_Fin (wc wm : Q) (r : Enriched) (c d : Q) :
  Cafes r = Fin c -> Metro_Dist_KM r = Fin d -> ~ d == 0 -> rent r <> 0%Z ->
  row_value_score wc wm r =
  Fin ((c * wc + 1 / d * 100 * wm) / (inject_Z (rent r) / 1000)).
Proof.
  intros Hc Hd Hd0 Hp.
  unfold row_value_score, spec_value_score. rewrite Hc, Hd.
  unfold of_int. simpl.
  rewrite (Qeq_bool_nonzero Hd0). simpl.
  rewrite (Qeq_bool_nonzero (price_in_thousands_nonzero Hp)).
  reflexivity.
Qed.

Lemma assign_Value_Score_rows (wc wm : Q) (df : list Enriched) :
  assign_Value_Score wc wm df =
  map (fun r => {| enriched := r; Value_Score := row_value_score wc wm r |}) df.
Proof.
  unfold assign_Value_Score. rewrite Value_Score_column_rows.
  apply zip_with_self.
Qed.

(** C1.  The scorer gives every record of the filtered set the score
    (amenity_density * amenity_weight
     + (1 / transit_distance_km) * 100 * transit_weight) / (price / 1000);
    the record with amenity density 20, transit distance 2.0 and price
    30000, scored with weights 0.5 and 0.8, gets 50/30. *)
Theorem value_score_formula :
  (forall (w_cafe w_metro : Q) (filtered_df : list Enriched),
     assign_Value_Score w_cafe w_metro filtered_df =
     map (fun r =>
            {| enriched := r;
               Value_Score :=
                 spec_value_score (Cafes r) (Fin w_cafe) (Metro_Dist_KM r)
                                  (Fin w_metro) (of_int (rent r)) |})
         filtered_df) /\
  (exists q : Q,
     map Value_Score (assign_Value_Score 0.5 0.8 [scenario_row]) = [Fin q] /\
     q == (20 * 0.5 + (1 / 2.0) * 100 * 0.8) / (30000 / 1000) /\
     q == 50 / 30).
Proof.
  split.
  - intros wc wm df. apply assign_Value_Score_rows.
  - eexists. split; [reflexivity|]. split; reflexivity.
Qed.

Lemma le_Fin (a b : Q) : le (Fin a) (Fin b) <-> a <= b.
Proof. unfold le. simpl. apply Qle_bool_iff. Qed.

Lemma ge_Fin (a b : Q) : ge (Fin a) (Fin b) <-> b <= a.
Proof. unfold ge, geb. apply le_Fin. Qed.

Lemma positive_record_score (wc wm : Q) (r : Enriched) (c d : Q) :
  Cafes r = Fin c -> Metro_Dist_KM r = Fin d -> 0 < d -> (0 < rent r)%Z ->
  row_value_score wc wm r =
  Fin ((c * wc + 1 / d * 100 * wm) / (inject_Z (rent r) / 1000)).
Proof.
  intros Hc Hd Hd0 Hp. apply row_value_score_Fin; try assumption.
  - intro E. rewrite E in Hd0. discriminate.
  - lia.
Qed.

Lemma score_monotone_w_cafe (wc wc' wm : Q) (r : Enriched) :
  positive_record r -> wc <= wc' ->
  le (row_value_score wc wm r) (row_value_score wc' wm r).
Proof.
  intros (c & d & Hc & Hc0 & Hd & Hd0 & Hp) Hw.
  rewrite !(positive_record_score _ _ r Hc Hd Hd0 Hp).
  apply le_Fin, Qdiv_le_compat_r; [now apply price_in_thousands_pos|].
  nra.
Qed.

Lemma score_monotone_w_metro (wc wm wm' : Q) (r : Enriched) :
  positive_record r -> wm <= wm' ->
  le (row_value_score wc wm r) (row_value_score wc wm' r).
Proof.
  intros (c & d & Hc & Hc0 & Hd & Hd0 & Hp) Hw.
  rewrite !(positive_record_score _ _ r Hc Hd Hd0 Hp).
  apply le_Fin, Qdiv_le_compat_r; [now apply price_in_thousands_pos|].
  assert (Hi : 0 < 1 / d) by (apply Qlt_shift_div_l; lra).
  generalize dependent (1 / d). intros t Ht. nra.
Qed.

Lemma score_antitone_price (wc wm : Q) (r r' : Enriched) :
  positive_record r -> dearer r r' -> 0 <= wc -> 0 <= wm ->
  le (row_value_score wc wm r') (row_value_score wc wm r).
Proof.
  intros (c & d & Hc & Hc0 & Hd & Hd0 & Hp) (Ec & Ed & Hr) Hwc Hwm.
  rewrite Hc in Ec. rewrite Hd in Ed.
  assert (Hp' : (0 < rent r')%Z) by lia.
  rewrite (positive_record_score _ _ r Hc Hd Hd0 Hp).
  rewrite (positive_record_score _ _ r' Ec Ed Hd0 Hp').
  apply le_Fin, Qdiv_le_antitone.
  - assert (Hi : 0 < 1 / d) by (apply Qlt_shift_div_l; lra).
    generalize dependent (1 / d). intros t Ht. nra.
  - now apply price_in_thousands_pos.
  - apply Qdiv_le_compat_r; [reflexivity|]. now rewrite <- Zle_Qle.
Qed.

Lemma Forall2_map_one {A B : Type} (P : A -> Prop) (R : B -> B -> Prop)
  (f g : A -> B) (l : list A) :
  Forall P l -> (forall x, P x -> R (f x) (g x)) ->
  Forall2 R (map f l) (map g l).
Proof.
  intros H HR. induction H; simpl; constructor; auto.
Qed.

Lemma Forall2_map_two {A B : Type} (P : A -> Prop) (S : A -> A -> Prop)
  (R : B -> B -> Prop) (f g : A -> B) (l l' : list A) :
  Forall P l -> Forall2 S l l' ->
  (forall x y, P x -> S x y -> R (g y) (f x)) ->
  Forall2 R (map g l') (map f l).
Proof.
  intros H H2 HR. induction H2; simpl; constructor.
  - apply HR; [now inversion H | assumption].
  - apply IHForall2. now inversion H.
Qed.

(** C6.  On records with positive price, non-negative amenity density and
    positive transit distance, the score of every record does not decrease
    when the amenity weight or the transit weight grows, and (the weights
    being non-negative, as the sliders make them) does not increase when
    the price grows. *)
Theorem value_score_monotone (df : list Enriched) :
  Forall positive_record df ->
  (forall wc wc' wm : Q,
     wc <= wc' ->
     Forall2 le (Value_Score_column wc wm df) (Value_Score_column wc' wm df)) /\
  (forall wc wm wm' : Q,
     wm <= wm' ->
     Forall2 le (Value_Score_column wc wm df) (Value_Score_column wc wm' df)) /\
  (forall (wc wm : Q) (df' : list Enriched),
     0 <= wc -> 0 <= wm -> Forall2 dearer df df' ->
     Forall2 le (Value_Score_column wc wm df') (Value_Score_column wc wm df)).
Proof.
  intro H. repeat split.
  - intros wc wc' wm Hw. rewrite !Value_Score_column_rows.
    apply Forall2_map_one with (P := positive_record); [assumption|].
    intros r Hr. now apply score_monotone_w_cafe.
  - intros wc wm wm' Hw. rewrite !Value_Score_column_rows.
    apply Forall2_map_one with (P := positive_record); [assumption|].
    intros r Hr. now apply score_monotone_w_metro.
  - intros wc wm df' Hwc Hwm Hd. rewrite !Value_Score_column_rows.
    apply Forall2_map_two with (P := positive_record) (S := dearer);
      try assumption.
    intros r r' Hr Hrr. now apply score_antitone_price.
Qed.

Lemma scenario_row_positive : positive_record scenario_row.
Proof.
  exists 20, 2.0. repeat split; try reflexivity; discriminate.
Qed.

Lemma value_score_monotone_witness :
  Forall positive_record [scenario_row] /\
  Forall2 le (Value_Score_column 0.2 0.8 [scenario_row])
             (Value_Score_column 0.5 0.8 [scenario_row]) /\
  Forall2 le (Value_Score_column 0.5 0.3 [scenario_row])
             (Value_Score_column 0.5 0.8 [scenario_row]) /\
  Forall2 le (Value_Score_column 0.5 0.8 [scenario_at 40000 2.0])
             (Value_Score_column 0.5 0.8 [scenario_row]).
Proof.
  assert (H : Forall positive_record [scenario_row])
    by (constructor; [exact scenario_row_positive | constructor]).
  split; [exact H|].
  destruct (value_score_monotone H) as (Hc & Hm & Hp).
  split; [|split].
  - apply Hc. discriminate.
  - apply Hm. discriminate.
  - apply Hp; try discriminate.
    constructor; [|constructor]. repeat split. discriminate.
Defined.

(** ** The preference filter *)

Lemma filter_preferences_filter (budget : Z) (min_safety : Q)
  (df : list Enriched) :
  filter_preferences budget min_safety df =
  filter (fun r => (rent r <=? budget)%Z && geb (Safety_Score r) (Fin min_safety))
         df.
Proof.
  unfold filter_preferences, s_and, col. rewrite !map_map.
  rewrite zip_with_map. apply mask_rows_map.
Qed.

(** C2.  A record is in the filtered result exactly when it is in the
    enriched set, its price is at most the maximum and its safety score is
    at least the minimum. *)
Theorem filter_preferences_subset (budget : Z) (min_safety : Q)
  (df : list Enriched) (r : Enriched) :
  In r (filter_preferences budget min_safety df) <->
  In r df /\ (rent r <= budget)%Z /\ ge (Safety_Score r) (Fin min_safety).
Proof.
  rewrite filter_preferences_filter, filter_In, andb_true_iff, Z.leb_le.
  unfold ge. tauto.
Qed.


(** ** Text *)

Lemma prefix_app (sub s : string) :
  prefix sub s = true <-> exists post, s = (sub ++ post)%string.
Proof.
  revert s. induction sub as [|a sub IH]; intro s; simpl.
  - split; [intros _; now exists s | now destruct s].
  - destruct s as [|b s].
    + split; [discriminate | intros (post & E); discriminate].
    + simpl. destruct (ascii_dec a b) as [->|Hab].
      * rewrite IH. split; intros (post & E); exists post.
        -- now rewrite E.
        -- now injection E.
      * split; [discriminate|]. intros (post & E).
        injection E as E1 E2. congruence.
Qed.

Lemma str_in_empty (sub : string) :
  str_in sub EmptyString = prefix sub EmptyString.
Proof. unfold str_in. apply orb_false_r. Qed.

Lemma str_in_String (sub : string) (c : ascii) (t : string) :
  str_in sub (String c t) = prefix sub (String c t) || str_in sub t.
Proof. reflexivity. Qed.

Lemma str_in_spec (sub s : string) :
  str_in sub s = true <->
  exists pre post, s = (pre ++ sub ++ post)%string.
Proof.
  induction s as [|c s IH].
  - rewrite str_in_empty, prefix_app. split.
    + intros (post & E). now exists EmptyString, post.
    + intros (pre & post & E). destruct pre; [|discriminate].
      now exists post.
  - rewrite str_in_String, orb_true_iff, prefix_app, IH. split.
    + intros [(post & E) | (pre & post & E)].
      * now exists EmptyString, post.
      * exists (String c pre), post. simpl. now rewrite E.
    + intros (pre & post & E). destruct pre as [|c' pre].
      * left. now exists post.
      * right. exists pre, post. simpl in E. now injection E.
Qed.

Lemma contains_ci_str_in (key text : string) :
  contains_ci key text <-> str_in (lower key) (lower text) = true.
Proof. unfold contains_ci. now rewrite str_in_spec. Qed.

(** ** Lists *)

Lemma combine_fst_snd {A B : Type} (l : list (A * B)) :
  combine (map fst l) (map snd l) = l.
Proof.
  induction l as [|[a b] l IH]; simpl; [reflexivity|]. now rewrite IH.
Qed.

Lemma in_zip_with {A B C : Type} (f : A -> B -> C) (l : list A) (d : list B)
  (e : C) :
  In e (zip_with f l d) -> exists a b, In a l /\ In b d /\ e = f a b.
Proof.
  unfold zip_with. rewrite in_map_iff. intros ([a b] & E & Hin).
  exists a, b. simpl in E. split; [|split].
  - eapply in_combine_l, Hin.
  - eapply in_combine_r, Hin.
  - now symmetry.
Qed.

Lemma map_zip_with_left {A B C D : Type} (f : A -> B -> C) (g : C -> D)
  (h : A -> D) (l : list A) (d : list B) :
  (forall a b, g (f a b) = h a) -> List.length l = List.length d ->
  map g (zip_with f l d) = map h l.
Proof.
  intros Hg. unfold zip_with. revert d.
  induction l as [|a l IH]; intros [|b d] Hlen; simpl;
    try reflexivity; try discriminate.
  rewrite Hg. f_equal. apply IH. now injection Hlen.
Qed.

Lemma map_zip_with_via {A A' B C D : Type} (f : A -> B -> C) (g : C -> D)
  (k : A -> A') (h : A' -> B -> D) (l : list A) (d : list B) :
  (forall a b, g (f a b) = h (k a) b) ->
  map g (zip_with f l d) = zip_with h (map k l) d.
Proof.
  intros Hg. unfold zip_with. revert d.
  induction l as [|a l IH]; intros [|b d]; simpl; try reflexivity.
  rewrite Hg. f_equal. apply IH.
Qed.

(** ** Enrichment *)

Section Enrichment.
Context {G : RandomState}.

Lemma draw_length {A : Type} (one : rng -> A * rng) (n : nat) (s : rng) :
  List.length (fst (draw one n s)) = n.
Proof.
  revert s. induction n as [|n IH]; intro s; simpl; [reflexivity|].
  destruct (one s) as [x s1]. specialize (IH s1).
  destruct (draw one n s1) as [xs s2]. simpl in *. now rewrite IH.
Qed.

Lemma draw_Forall {A : Type} (P : A -> Prop) (one : rng -> A * rng) :
  (forall s, P (fst (one s))) ->
  forall n s, Forall P (fst (draw one n s)).
Proof.
  intros H n. induction n as [|n IH]; intro s; simpl; [constructor|].
  specialize (H s). destruct (one s) as [x s1]. specialize (IH s1).
  destruct (draw one n s1) as [xs s2]. simpl in *. now constructor.
Qed.

(** No key occurs in the text: the loop falls through, draws nothing and
    returns the pair of NaN. *)
Lemma get_coords_from_unresolved keys (a : string) (s : rng) :
  resolves_in keys a = false -> get_coords_from keys a s = ((NaN, NaN), s).
Proof.
  induction keys as [|[key [la lo]] rest IH]; simpl; intro H; [reflexivity|].
  apply orb_false_iff in H as [H1 H2]. rewrite H1. auto.
Qed.

(** The loop returns at the first key that occurs in the text, with two
    successive draws of jitter. *)
Lemma get_coords_from_first before key (la lo : Q) after (a : string) (s : rng) :
  resolves_in before a = false ->
  str_in (lower key) (lower a) = true ->
  get_coords_from (before ++ (key, (la, lo)) :: after) a s =
  (let (j1, s1) := uniform (-0.01) 0.01 s in
   let (j2, s2) := uniform (-0.01) 0.01 s1 in
   ((Fin (la + j1), Fin (lo + j2)), s2)).
Proof.
  intros Hb Hk. induction before as [|[k [x y]] before IH]; simpl.
  - now rewrite Hk.
  - simpl in Hb. apply orb_false_iff in Hb as [H1 H2]. rewrite H1. auto.
Qed.

Lemma get_coords_from_isna keys (a : string) (s : rng) :
  isna (fst (fst (get_coords_from keys a s))) = negb (resolves_in keys a).
Proof.
  induction keys as [|[key [la lo]] rest IH]; simpl; [reflexivity|].
  destruct (str_in (lower key) (lower a)); simpl; [|exact IH].
  destruct (uniform (-0.01) 0.01 s) as [j1 s1].
  now destruct (uniform (-0.01) 0.01 s1) as [j2 s2].
Qed.

Lemma apply_get_coords_length (areas : list string) (s : rng) :
  List.length (fst (apply_get_coords areas s)) = List.length areas.
Proof.
  revert s. induction areas as [|a rest IH]; intro s; simpl; [reflexivity|].
  destruct (get_coords a s) as [c s1]. specialize (IH s1).
  destruct (apply_get_coords rest s1) as [cs s2]. simpl in *. now rewrite IH.
Qed.

Lemma assign_simulated_rows (df : list Located) (offs : list Z)
  (sf m : list Q) :
  assign_simulated df
    (s_add (s_div_c (map of_int (col (fun r => Rent (loc_listing r)) df))
                    (of_int 1500))
           (map of_int offs))
    (map Fin sf) (map Fin m) =
  zip_with simulated_row df (combine offs (combine sf m)).
Proof.
  unfold assign_simulated, s_add, s_div_c, col, zip_with.
  revert offs sf m.
  induction df as [|r df IH]; intros [|o offs] [|x sf] [|y m]; simpl;
    try reflexivity.
  f_equal. apply IH.
Qed.

Lemma simulate_lifestyle_rows (df : list Located) :
  simulate_lifestyle df =
  zip_with simulated_row df (simulated_draws (List.length df)).
Proof.
  unfold simulate_lifestyle, simulated_draws.
  destruct (draw (randint 5 30) (List.length df) (seed 42)) as [offs s1].
  destruct (draw (uniform 6.5 9.8) (List.length df) s1) as [sf s2].
  destruct (draw (uniform 0.5 10.0) (List.length df) s2) as [m s3].
  apply assign_simulated_rows.
Qed.

Lemma simulated_draws_length (n : nat) :
  List.length (simulated_draws n) = n.
Proof.
  unfold simulated_draws.
  pose proof (draw_length (randint 5 30) n (seed 42)) as H1.
  destruct (draw (randint 5 30) n (seed 42)) as [offs s1].
  pose proof (draw_length (uniform 6.5 9.8) n s1) as H2.
  destruct (draw (uniform 6.5 9.8) n s1) as [sf s2].
  pose proof (draw_length (uniform 0.5 10.0) n s2) as H3.
  destruct (draw (uniform 0.5 10.0) n s2) as [m s3].
  simpl in *. rewrite !length_combine. lia.
Qed.

(** The simulated fields of the result depend on the located frame through
    its listings only. *)
Lemma simulate_lifestyle_fields (df : list Located) :
  map without_coords (simulate_lifestyle df) =
  zip_with simulated_fields (map loc_listing df)
           (simulated_draws (List.length (map loc_listing df))).
Proof.
  rewrite simulate_lifestyle_rows, length_map.
  now apply map_zip_with_via.
Qed.

(** Which rows survive [dropna] does not depend on the generator: they are
    the rows whose text holds a key. *)
Lemma located_listings (df : list Listing) (s : rng) :
  map loc_listing
    (dropna_lat
       (zip_with (fun r c => {| loc_listing := r; loc_lat := fst c;
                                loc_lon := snd c |})
                 df (fst (apply_get_coords (col Area_Locality df) s)))) =
  filter resolves df.
Proof.
  revert s. induction df as [|r df IH]; intro s; [reflexivity|].
  assert (Hna : isna (fst (fst (get_coords (Area_Locality r) s))) =
                negb (resolves r))
    by apply get_coords_from_isna.
  unfold col in *. cbn [map apply_get_coords].
  destruct (get_coords (Area_Locality r) s) as [c s1].
  specialize (IH s1).
  destruct (apply_get_coords (map Area_Locality df) s1) as [cs s2].
  unfold zip_with, dropna_lat in *.
  cbn [combine map filter fst snd loc_lat] in *.
  rewrite Hna, negb_involutive.
  destruct (resolves r); cbn [map loc_listing]; now rewrite IH.
Qed.

Lemma create_coordinates_listings (df : list Listing) (s0 : rng) :
  df <> [] ->
  exists located,
    create_coordinates df s0 = Ok located /\
    map loc_listing located = filter resolves df.
Proof.
  intro Hne. unfold create_coordinates.
  pose proof (located_listings df s0) as H.
  pose proof (apply_get_coords_length (col Area_Locality df) s0) as Hlen.
  destruct (apply_get_coords (col Area_Locality df) s0) as [pairs s1].
  cbn [fst] in *.
  destruct pairs as [|p pairs].
  - destruct df; [contradiction | discriminate].
  - unfold unzip_coords, assign_coords. rewrite combine_fst_snd.
    eexists. split; [reflexivity | exact H].
Qed.

(** The simulated fields of the enriched frame are a function of the input
    rows alone. *)
Lemma enrich_fields (df : list Listing) (s0 : rng) :
  result_map (map without_coords) (enrich df s0) =
  match df with
  | [] => Raise ValueError
  | _ => Ok (zip_with simulated_fields (filter resolves df)
                      (simulated_draws (List.length (filter resolves df))))
  end.
Proof.
  destruct df as [|r df]; [reflexivity|].
  destruct (@create_coordinates_listings (r :: df) s0) as (loc & E & H);
    [discriminate|].
  unfold enrich. rewrite E. cbn [result_map].
  now rewrite simulate_lifestyle_fields, H.
Qed.

End Enrichment.

Section EnrichmentSpec.
Context {G : RandomState} {L : RandomStateSpec G}.

Lemma resolves_in_false keys (a : string) :
  resolves_in keys a = false <->
  forall k c, In (k, c) keys -> ~ contains_ci k a.
Proof.
  induction keys as [|[key c] rest IH]; simpl.
  - split; [intros _ k c [] | reflexivity].
  - rewrite orb_false_iff, IH. split.
    + intros [H1 H2] k c' [E | Hin].
      * injection E as <- <-. rewrite contains_ci_str_in. congruence.
      * eapply H2, Hin.
    + intro H. split.
      * destruct (str_in (lower key) (lower a)) eqn:E; [|reflexivity].
        exfalso. apply (H key c); [now left|]. now apply contains_ci_str_in.
      * intros k c' Hin. apply (H k c'). now right.
Qed.

Lemma resolves_in_first keys (a : string) :
  resolves_in keys a = true ->
  exists before key la lo after,
    keys = before ++ (key, (la, lo)) :: after /\
    resolves_in before a = false /\
    str_in (lower key) (lower a) = true.
Proof.
  induction keys as [|[key [la lo]] rest IH]; simpl; [discriminate|].
  destruct (str_in (lower key) (lower a)) eqn:E; simpl.
  - intros _. now exists [], key, la, lo, rest.
  - intro H. destruct (IH H) as (before & k & x & y & after & -> & Hb & Hk).
    exists ((key, (la, lo)) :: before), k, x, y, after. simpl.
    now rewrite E, Hb.
Qed.

Lemma resolves_has_key (r : Listing) : resolves r = true <-> has_key r.
Proof.
  unfold resolves, has_key. split.
  - intro H.
    destruct (resolves_in_first _ _ H) as (b & k & x & y & a & E & _ & Hk).
    exists k. split; [|now apply contains_ci_str_in].
    rewrite E, map_app. apply in_or_app. right. now left.
  - intros (k & Hin & Hk).
    destruct (resolves_in loc_map (Area_Locality r)) eqn:E; [reflexivity|].
    apply in_map_iff in Hin as ([k' c] & <- & Hin).
    exfalso. eapply (proj1 (resolves_in_false _ _) E), Hk. exact Hin.
Qed.

Lemma resolves_first_match (r : Listing) :
  resolves r = true ->
  exists key la lo, first_match (Area_Locality r) key la lo.
Proof.
  intro H.
  destruct (resolves_in_first _ _ H) as (b & k & x & y & a & E & Hb & Hk).
  exists k, x, y, b, a. split; [exact E|]. split.
  - now apply contains_ci_str_in.
  - now apply resolves_in_false.
Qed.

Lemma get_coords_jittered (a : string) (s : rng) key (la lo : Q) :
  first_match a key la lo -> jittered la lo (fst (get_coords a s)).
Proof.
  intros (before & after & E & Hk & Hb). unfold get_coords. rewrite E.
  rewrite get_coords_from_first;
    [| now apply resolves_in_false | now apply contains_ci_str_in].
  pose proof (@uniform_range _ _ (-0.01) 0.01 s) as H1.
  destruct (uniform (-0.01) 0.01 s) as [j1 s1].
  pose proof (@uniform_range _ _ (-0.01) 0.01 s1) as H2.
  destruct (uniform (-0.01) 0.01 s1) as [j2 s2].
  exists j1, j2. simpl in *. split; [reflexivity|].
  split; [apply H1 | apply H2]; discriminate.
Qed.

Lemma located_rows (df : list Listing) (s : rng) :
  let located :=
    dropna_lat
      (zip_with (fun r c => {| loc_listing := r; loc_lat := fst c;
                               loc_lon := snd c |})
                df (fst (apply_get_coords (col Area_Locality df) s))) in
  map loc_listing located = filter resolves df /\ Forall located_ok located.
Proof.
  revert s. induction df as [|r df IH]; intro s; simpl.
  - split; [reflexivity | constructor].
  - assert (Hna : isna (fst (fst (get_coords (Area_Locality r) s))) =
                 negb (resolves r))
      by apply get_coords_from_isna.
    pose proof (@get_coords_jittered (Area_Locality r) s) as Hj.
    destruct (get_coords (Area_Locality r) s) as [c s1].
    specialize (IH s1). unfold col in *.
    destruct (apply_get_coords (map Area_Locality df) s1) as [cs s2].
    cbn [fst] in *. destruct IH as [IH1 IH2].
    unfold zip_with, dropna_lat in *. cbn [combine map filter fst snd loc_lat].
    rewrite Hna, negb_involutive.
    destruct (resolves r); cbn [map loc_listing].
    + split; [now f_equal|]. constructor; [|exact IH2].
      intros key la lo Hm. cbn [loc_lat loc_lon loc_listing] in *.
      rewrite <- surjective_pairing. exact (Hj key la lo Hm).
    + now split.
Qed.

Lemma create_coordinates_rows (df : list Listing) (s0 : rng) :
  df <> [] ->
  exists located,
    create_coordinates df s0 = Ok located /\
    map loc_listing located = filter resolves df /\
    Forall located_ok located.
Proof.
  intro Hne. unfold create_coordinates.
  pose proof (located_rows df s0) as H.
  pose proof (apply_get_coords_length (col Area_Locality df) s0) as Hlen.
  destruct (apply_get_coords (col Area_Locality df) s0) as [pairs s1].
  simpl in *.
  destruct pairs as [|p pairs].
  - destruct df; [contradiction | discriminate].
  - unfold unzip_coords, assign_coords. rewrite combine_fst_snd.
    eexists. split; [reflexivity | exact H].
Qed.

Lemma simulated_draws_in_range (n : nat) :
  Forall draw_in_range (simulated_draws n).
Proof.
  unfold simulated_draws.
  pose proof (draw_Forall (fun z => (5 <= z < 30)%Z) (randint 5 30)) as H1.
  pose proof (draw_Forall (fun q => 6.5 <= q <= 9.8) (uniform 6.5 9.8)) as H2.
  pose proof (draw_Forall (fun q => 0.5 <= q <= 10.0) (uniform 0.5 10.0)) as H3.
  specialize (H1 (fun s => @randint_range _ _ 5 30 s eq_refl) n (seed 42)).
  destruct (draw (randint 5 30) n (seed 42)) as [offs s1].
  assert (U2 : forall s, 6.5 <= fst (uniform 6.5 9.8 s) <= 9.8)
    by (intro s; apply uniform_range; discriminate).
  specialize (H2 U2 n s1).
  destruct (draw (uniform 6.5 9.8) n s1) as [sf s2].
  assert (U3 : forall s, 0.5 <= fst (uniform 0.5 10.0 s) <= 10.0)
    by (intro s; apply uniform_range; discriminate).
  specialize (H3 U3 n s2).
  destruct (draw (uniform 0.5 10.0) n s2) as [m s3].
  simpl in *. rewrite Forall_forall in *.
  intros [o [x y]] Hin. unfold draw_in_range. simpl.
  pose proof (in_combine_l _ _ _ _ Hin) as Ho.
  apply in_combine_r in Hin.
  pose proof (in_combine_l _ _ _ _ Hin) as Hx.
  apply in_combine_r in Hin. auto.
Qed.

(** Every row of the enriched frame is a located row with three draws in
    range put next to it. *)
Lemma enrich_rows (df : list Listing) (s0 : rng) :
  df <> [] ->
  exists located,
    enrich df s0 =
      Ok (zip_with simulated_row located
                   (simulated_draws (List.length located))) /\
    map loc_listing located = filter resolves df /\
    Forall located_ok located.
Proof.
  intro Hne. destruct (create_coordinates_rows s0 Hne) as (loc & E & H1 & H2).
  exists loc. unfold enrich. rewrite E, simulate_lifestyle_rows. auto.
Qed.

Lemma enrich_empty (s0 : rng) : enrich [] s0 = Raise ValueError.
Proof. reflexivity. Qed.

Lemma enriched_row_simulated (df : list Listing) (s0 : rng)
  (out : list Enriched) (e : Enriched) :
  enrich df s0 = Ok out -> In e out ->
  exists r v, e = simulated_row r v /\ draw_in_range v /\ located_ok r /\
              In (loc_listing r) df /\ resolves (loc_listing r) = true.
Proof.
  intros E Hin. destruct df as [|r0 df]; [discriminate|].
  destruct (@enrich_rows (r0 :: df) s0) as (loc & E' & H1 & H2);
    [discriminate|].
  rewrite E in E'. injection E' as ->.
  apply in_zip_with in Hin as (r & v & Hr & Hv & ->).
  exists r, v. split; [reflexivity|]. split; [|split].
  - eapply Forall_forall; [apply simulated_draws_in_range | exact Hv].
  - eapply Forall_forall; [exact H2 | exact Hr].
  - apply filter_In. rewrite <- H1. now apply in_map.
Qed.

End EnrichmentSpec.

(** ** The toy generator obeys the interface *)

Lemma lcg_spec (k : Z) : RandomStateSpec (lcg k).
Proof.
  constructor; cbn [lcg randint uniform fst].
  - intros low high s H.
    pose proof (Z.mod_pos_bound s (high - low)). lia.
  - intros low high s H.
    assert (F : 0 <= inject_Z (s mod 1000) / 1000 <= 1).
    { pose proof (Z.mod_pos_bound s 1000 eq_refl) as [H0 H1]. split.
      - apply Qle_shift_div_l; [reflexivity|]. rewrite Qmult_0_l.
        change 0 with (inject_Z 0). now rewrite <- Zle_Qle.
      - apply Qle_shift_div_r; [reflexivity|]. rewrite Qmult_1_l.
        change 1000 with (inject_Z 1000). rewrite <- Zle_Qle. lia. }
    generalize dependent (inject_Z (s mod 1000) / 1000). intros f Hf.
    split; nra.
Qed.

(** ** Reproducibility *)

(** C4.  Whatever state the generator is in when enrichment starts, the
    listing fields, amenity density, safety score and transit distance of
    the enriched rows are the same, as the three columns are drawn after
    one [seed(42)]; the coordinates are not: they change with that state. *)
Theorem enrichment_reproducible :
  (forall (G : RandomState) (df : list Listing) (s1 s2 : rng),
     result_map (map without_coords) (enrich df s1) =
     result_map (map without_coords) (enrich df s2)) /\
  (exists (df : list Listing) (s1 s2 : Z),
     result_map (map coords) (@enrich (lcg 0) df s1) <>
     result_map (map coords) (@enrich (lcg 0) df s2)).
Proof.
  split.
  - intros G df s1 s2. now rewrite !enrich_fields.
  - exists (bangalore sample_csv), 7%Z, 8%Z. vm_compute. congruence.
Qed.

(** ** Coordinates *)

Section Coordinates.
Context {G : RandomState} {L : RandomStateSpec G}.

(** C5.  Enrichment of a frame that holds the row [r] succeeds.  If the
    text of [r] holds, case ignored, some key of the table, the table has a
    first entry whose key it holds, [r] is in the enriched frame, and each
    enriched row of [r] has the coordinates of that entry plus a jitter of
    at most 0.01 degrees drawn for each axis; if it holds no key, [r] is
    not in the enriched frame. *)
Theorem coordinates_resolved (df : list Listing) (s0 : rng) (r : Listing) :
  In r df ->
  exists out,
    enrich df s0 = Ok out /\
    (has_key r ->
     exists key la lo,
       first_match (Area_Locality r) key la lo /\
       (exists e, In e out /\ listing e = r) /\
       (forall e, In e out -> listing e = r -> jittered la lo (coords e))) /\
    (~ has_key r -> forall e, In e out -> listing e <> r).
Proof.
  intro Hin.
  assert (Hne : df <> []) by (intro E; now rewrite E in Hin).
  destruct (enrich_rows s0 Hne) as (loc & E & Hl & Hok).
  eexists. split; [exact E|].
  set (out := zip_with simulated_row loc (simulated_draws (List.length loc))).
  assert (Hproj : map (fun e => (listing e, coords e)) out =
                  map (fun x => (loc_listing x, (loc_lat x, loc_lon x))) loc).
  { apply map_zip_with_left; [reflexivity|].
    now rewrite simulated_draws_length. }
  assert (Hlist : map listing out = filter resolves df).
  { rewrite <- Hl. apply map_zip_with_left; [reflexivity|].
    now rewrite simulated_draws_length. }
  split.
  - intro Hk. apply resolves_has_key in Hk.
    destruct (resolves_first_match _ Hk) as (key & la & lo & Hm).
    exists key, la, lo. split; [exact Hm|]. split.
    + assert (Hr : In r (map listing out))
        by (rewrite Hlist; now apply filter_In).
      apply in_map_iff in Hr as (e & He & Hine). now exists e.
    + intros e He Hr.
      assert (Hp : In (listing e, coords e)
                      (map (fun e => (listing e, coords e)) out))
        by (apply in_map_iff; now exists e).
      rewrite Hproj in Hp. apply in_map_iff in Hp as (x & Hx & Hinx).
      injection Hx as Hx1 Hx2 Hx3. unfold coords. rewrite <- Hx2, <- Hx3.
      rewrite Forall_forall in Hok. apply (Hok x Hinx key la lo).
      now rewrite Hx1, Hr.
  - intros Hk e He Hr. apply Hk, resolves_has_key.
    assert (Hf : In (listing e) (filter resolves df))
      by (rewrite <- Hlist; now apply in_map).
    apply filter_In in Hf. now rewrite <- Hr.
Qed.

End Coordinates.

Lemma coordinates_resolved_witness :
  In (row "Koramangala Cross" "Bangalore" 30000) (bangalore sample_csv) /\
  exists out,
    @enrich (lcg 0) (bangalore sample_csv) 7%Z = Ok out /\
    (has_key (row "Koramangala Cross" "Bangalore" 30000) ->
     exists key la lo,
       first_match "Koramangala Cross" key la lo /\
       (exists e, In e out /\
                  listing e = row "Koramangala Cross" "Bangalore" 30000) /\
       (forall e, In e out ->
                  listing e = row "Koramangala Cross" "Bangalore" 30000 ->
                  jittered la lo (coords e))) /\
    (~ has_key (row "Koramangala Cross" "Bangalore" 30000) ->
     forall e, In e out ->
               listing e <> row "Koramangala Cross" "Bangalore" 30000).
Proof.
  assert (H : In (row "Koramangala Cross" "Bangalore" 30000)
                 (bangalore sample_csv)) by (now left).
  split; [exact H|].
  exact (@coordinates_resolved (lcg 0) (lcg_spec 0) _ 7%Z _ H).
Defined.

(** ** Simulated columns *)

Lemma simulated_row_offset (r : Located) (v : Z * (Q * Q)) (n : Z) :
  amenity_offset (simulated_row r v) n <-> n = fst v.
Proof.
  unfold amenity_offset, rent. cbn [simulated_row Cafes listing].
  unfold of_int. cbn [div add Qeq_bool]. split.
  - intros (c & E & H). injection E as <-.
    apply (proj1 (inject_Z_injective n (fst v))). rewrite <- H. field.
  - intros ->. eexists. split; [reflexivity|]. field.
Qed.

Section Simulated.
Context {G : RandomState} {L : RandomStateSpec G}.

Lemma amenity_offset_range (df : list Listing) (s0 : rng)
  (out : list Enriched) (e : Enriched) (n : Z) :
  enrich df s0 = Ok out -> In e out -> amenity_offset e n -> (5 <= n < 30)%Z.
Proof.
  intros E Hin Hn.
  destruct (enriched_row_simulated df s0 e E Hin) as (r & v & -> & Hv & _).
  apply simulated_row_offset in Hn as ->. apply Hv.
Qed.

(** C10.  Every enriched record has a safety score between 6.5 and 9.8;
    so for a minimum safety of at most 6.5 the preference filter keeps
    exactly the records within budget. *)
Theorem safety_threshold_below_floor (df : list Listing) (s0 : rng)
  (out : list Enriched) :
  enrich df s0 = Ok out ->
  Forall (fun e => exists x : Q,
                     Safety_Score e = Fin x /\ 6.5 <= x <= 9.8) out /\
  (forall (budget : Z) (t : Q),
     t <= 6.5 ->
     (forall e, In e out -> ge (Safety_Score e) (Fin t)) /\
     filter_preferences budget t out =
     filter (fun e => (rent e <=? budget)%Z) out).
Proof.
  intro E.
  assert (H : Forall (fun e => exists x : Q,
                        Safety_Score e = Fin x /\ 6.5 <= x <= 9.8) out).
  { apply Forall_forall. intros e Hin.
    destruct (enriched_row_simulated df s0 e E Hin) as (r & v & -> & Hv & _).
    exists (fst (snd v)). split; [reflexivity | apply Hv]. }
  split; [exact H|]. intros budget t Ht.
  rewrite Forall_forall in H.
  assert (Hge : forall e, In e out -> ge (Safety_Score e) (Fin t)).
  { intros e Hin. destruct (H e Hin) as (x & -> & Hx & _).
    apply ge_Fin. lra. }
  split; [exact Hge|].
  rewrite filter_preferences_filter. apply filter_ext_in.
  intros e Hin. rewrite (Hge e Hin). apply andb_true_r.
Qed.

(** C8.  Every record enrichment produces has a transit distance of at
    least 0.5 km, so [1 / transit_distance_km] is a number; the scorer is a
    total function, and the score of every enriched record within the
    thresholds whose price is not zero is a number. *)
Theorem enriched_score_numeric (df : list Listing) (s0 : rng)
  (out : list Enriched) :
  enrich df s0 = Ok out ->
  Forall (fun e => exists d : Q,
                     Metro_Dist_KM e = Fin d /\ 0.5 <= d /\
                     numeric (div (of_int 1) (Metro_Dist_KM e))) out /\
  (forall (budget : Z) (t wc wm : Q),
     Forall (fun sc => rent (enriched sc) <> 0%Z -> numeric (Value_Score sc))
            (assign_Value_Score wc wm (filter_preferences budget t out))).
Proof.
  intro E. split.
  - apply Forall_forall. intros e Hin.
    destruct (enriched_row_simulated df s0 e E Hin) as (r & v & -> & Hv & _).
    destruct Hv as (_ & _ & Hd & _).
    exists (snd (snd v)). split; [reflexivity|]. split; [exact Hd|].
    cbn [simulated_row Metro_Dist_KM of_int div].
    rewrite Qeq_bool_nonzero; [reflexivity|].
    intro Z0. lra.
  - intros budget t wc wm. apply Forall_forall. intros sc Hin Hp.
    rewrite assign_Value_Score_rows in Hin.
    apply in_map_iff in Hin as (e & <- & Hin).
    rewrite filter_preferences_filter in Hin. apply filter_In in Hin as (Hin & _).
    destruct (enriched_row_simulated df s0 e E Hin) as (r & v & -> & Hv & _).
    destruct Hv as ((Ho & _) & _ & Hd & _).
    cbn [enriched Value_Score] in *.
    erewrite row_value_score_Fin; [reflexivity | | reflexivity | | exact Hp].
    + cbn [simulated_row Cafes of_int div add Qeq_bool]. reflexivity.
    + intro Z0. lra.
Qed.

End Simulated.

Lemma safety_threshold_below_floor_witness :
  @enrich (lcg 0) (bangalore sample_csv) 7%Z = Ok sample_enriched /\
  filter_preferences 20000 1.0 sample_enriched =
  filter (fun e => (rent e <=? 20000)%Z) sample_enriched.
Proof.
  assert (E : @enrich (lcg 0) (bangalore sample_csv) 7%Z = Ok sample_enriched)
    by reflexivity.
  split; [exact E|].
  apply (proj2 (@safety_threshold_below_floor (lcg 0) (lcg_spec 0) _ _ _ E)).
  discriminate.
Defined.

Lemma enriched_score_numeric_witness :
  @enrich (lcg 0) (bangalore sample_csv) 7%Z = Ok sample_enriched /\
  Forall (fun e => exists d : Q,
                     Metro_Dist_KM e = Fin d /\ 0.5 <= d /\
                     numeric (div (of_int 1) (Metro_Dist_KM e)))
         sample_enriched.
Proof.
  assert (E : @enrich (lcg 0) (bangalore sample_csv) 7%Z = Ok sample_enriched)
    by reflexivity.
  split; [exact E|].
  apply (proj1 (@enriched_score_numeric (lcg 0) (lcg_spec 0) _ _ _ E)).
Defined.

(** With a transit distance of zero the scorer has no policy: the score is
    an infinity, or NaN when the transit weight is zero. *)
Lemma zero_distance_score_not_numeric :
  Metro_Dist_KM zero_distance_row = Fin 0 /\
  map Value_Score (assign_Value_Score 0.5 0.8 [zero_distance_row]) = [PInf] /\
  map Value_Score (assign_Value_Score 0.5 0 [zero_distance_row]) = [NaN] /\
  ~ numeric PInf /\ ~ numeric NaN.
Proof.
  repeat split; try reflexivity; discriminate.
Qed.

(** C9.  For every enriched record the amenity density is its price over
    1500 plus an integer from 5 to 29, the upper bound 30 of [randint]
    being exclusive; and every integer from 5 to 29 is the offset some
    generator gives. *)
Theorem amenity_density_offset :
  (forall (G : RandomState) (L : RandomStateSpec G) (df : list Listing)
          (s0 : rng) (out : list Enriched) (e : Enriched),
     enrich df s0 = Ok out -> In e out ->
     exists n : Z, (5 <= n <= 29)%Z /\ amenity_offset e n) /\
  (forall n : Z,
     (5 <= n <= 29)%Z ->
     exists (G : RandomState) (L : RandomStateSpec G) (df : list Listing)
            (s0 : rng) (out : list Enriched) (e : Enriched),
       enrich df s0 = Ok out /\ In e out /\ amenity_offset e n).
Proof.
  split.
  - intros G L df s0 out e E Hin.
    destruct (enriched_row_simulated df s0 e E Hin) as (r & v & -> & Hv & _).
    exists (fst v). split; [destruct Hv as ((? & ?) & _); lia|].
    now apply simulated_row_offset.
  - intros n Hn.
    exists (lcg (n - 47)), (lcg_spec (n - 47)),
           [row "Koramangala Cross" "Bangalore" 30000], 0%Z.
    destruct (@enrich_rows (lcg (n - 47)) (lcg_spec (n - 47))
                [row "Koramangala Cross" "Bangalore" 30000] 0%Z)
      as (loc & E & Hl & _); [discriminate|].
    change (filter resolves [row "Koramangala Cross" "Bangalore" 30000])
      with [row "Koramangala Cross" "Bangalore" 30000] in Hl.
    destruct loc as [|x [|y loc]]; try discriminate.
    eexists. eexists. split; [exact E|]. split; [now left|].
    apply simulated_row_offset.
    cbn [List.length simulated_draws draw lcg seed randint uniform combine
         fst snd].
    replace (42 + (n - 47))%Z with (n - 5)%Z by lia.
    change (30 - 5)%Z with 25%Z. rewrite Z.mod_small; lia.
Qed.

Lemma amenity_density_offset_witness :
  @enrich (lcg 0) (bangalore sample_csv) 7%Z = Ok sample_enriched /\
  forall e, In e sample_enriched ->
            exists n : Z, (5 <= n <= 29)%Z /\ amenity_offset e n.
Proof.
  assert (E : @enrich (lcg 0) (bangalore sample_csv) 7%Z = Ok sample_enriched)
    by reflexivity.
  split; [exact E|]. intros e Hin.
  exact (proj1 amenity_density_offset (lcg 0) (lcg_spec 0) _ _ _ e E Hin).
Defined.

(** The offset 30 is never drawn. *)
Lemma amenity_offset_30_impossible :
  ~ (forall n : Z,
       (5 <= n <= 30)%Z ->
       exists (G : RandomState) (L : RandomStateSpec G) (df : list Listing)
              (s0 : rng) (out : list Enriched) (e : Enriched),
         enrich df s0 = Ok out /\ In e out /\ amenity_offset e n).
Proof.
  intro H. destruct (H 30%Z ltac:(lia)) as (G & L & df & s0 & out & e & E & Hin & Hn).
  pose proof (@amenity_offset_range G L df s0 out e 30%Z E Hin Hn). lia.
Qed.

(** ** Sorting *)

(** Descending order alone does not fix the order of two rows of equal
    score: both orders are sorted.  The order in which [sort_values] leaves
    them is that of the algorithm its default [kind] selects. *)
Lemma descending_order_leaves_ties_open (a b : Scored) (q : Q) :
  Value_Score a = Fin q -> Value_Score b = Fin q ->
  sorted_descending [a; b] [a; b] /\ sorted_descending [a; b] [b; a].
Proof.
  intros Ha Hb.
  assert (Hq : le (Fin q) (Fin q)) by (apply le_Fin; lra).
  split; split.
  - apply Permutation_refl.
  - repeat constructor. now rewrite Ha, Hb.
  - apply perm_swap.
  - repeat constructor. now rewrite Ha, Hb.
Qed.

(** ** A missing input file *)

(** C7.  Without the input file the loader displays the error and returns
    the empty frame; the script then sets the page up, displays the title
    and the introduction and stops: no widget, metric, chart or table
    follows, and neither the filter nor the scorer runs. *)
Theorem missing_file_halts (G : RandomState)
  (sort_values : list Scored -> list Scored) (s0 : rng) (w : Widgets) :
  load_data None s0 = (Done [], [st_error_csv_not_found]) /\
  app sort_values None s0 w =
    (Stopped,
     [st_error_csv_not_found; st_set_page_config; st_title; st_markdown]) /\
  ~ In run_filter (snd (app sort_values None s0 w)) /\
  ~ In run_score (snd (app sort_values None s0 w)).
Proof.
  repeat split; try reflexivity; cbn; intuition discriminate.
Qed.

(** After the error message of a missing file the page still shows its
    title and its introduction. *)
Lemma missing_file_shows_heading :
  snd (@app (lcg 0) insertion_sort_desc None 7%Z default_widgets) =
    [st_error_csv_not_found; st_set_page_config; st_title; st_markdown] /\
  In st_title (snd (@app (lcg 0) insertion_sort_desc None 7%Z default_widgets)) /\
  beyond_message st_title = true.
Proof.
  repeat split. cbn. auto.
Qed.

(** * Further properties of the script *)

(** ** The loader *)

Lemma filter_filter {A : Type} (p q : A -> bool) (l : list A) :
  filter q (filter p l) = filter (fun x => p x && q x) l.
Proof.
  induction l as [|x l IH]; simpl; [reflexivity|].
  destruct (p x); simpl; [destruct (q x)|]; now rewrite IH.
Qed.

Lemma filter_none {A : Type} (p : A -> bool) (l : list A) :
  (forall x, In x l -> p x = false) -> filter p l = [].
Proof.
  induction l as [|x l IH]; simpl; intro H; [reflexivity|].
  rewrite (H x) by now left. apply IH. intros y Hy. apply H. now right.
Qed.

Lemma bangalore_filter (csv : list Listing) :
  bangalore csv = filter (fun r => String.eqb (City r) "Bangalore") csv.
Proof.
  unfold bangalore, col. rewrite map_map. apply mask_rows_map.
Qed.

Section Loader.
Context {G : RandomState}.

(** The enriched frame has the rows of the input whose text holds a key,
    in their order, whatever the generator. *)
Lemma enrich_listings (df : list Listing) (s0 : rng) :
  df <> [] ->
  exists out, enrich df s0 = Ok out /\ map listing out = filter resolves df.
Proof.
  intro Hne.
  destruct (create_coordinates_listings s0 Hne) as (loc & E & H).
  exists (simulate_lifestyle loc). unfold enrich. rewrite E.
  split; [reflexivity|]. rewrite simulate_lifestyle_rows, <- H.
  apply map_zip_with_left; [reflexivity|].
  now rewrite simulated_draws_length.
Qed.

(** X1.  When the file holds a row of the one city, [load_data] displays
    nothing and returns a frame whose listings are the rows of the file of
    that city whose text holds a key, unchanged, in the order of the file
    and as often as they occur. *)
Theorem load_data_rows (csv : list Listing) (s0 : rng) :
  bangalore csv <> [] ->
  exists out,
    load_data (Some csv) s0 = (Done out, []) /\
    map listing out = filter kept csv.
Proof.
  intro Hne. destruct (enrich_listings s0 Hne) as (out & E & H).
  exists out. unfold load_data. rewrite E. split; [reflexivity|].
  rewrite H, bangalore_filter. apply filter_filter.
Qed.

(** X2.  When the file holds no row of the one city (an empty file
    included), unpacking the coordinates raises [ValueError] inside
    [load_data]: the run ends with the exception before anything is
    displayed. *)
Theorem no_city_row_crashes (sort_values : list Scored -> list Scored)
  (csv : list Listing) (s0 : rng) (w : Widgets) :
  bangalore csv = [] ->
  load_data (Some csv) s0 = (Crashed ValueError, []) /\
  app sort_values (Some csv) s0 w = (Crashed ValueError, []).
Proof.
  intro H. unfold app, load_data. rewrite H. split; reflexivity.
Qed.

(** X3.  When the file holds rows of the one city but the text of none of
    them holds a key, [load_data] returns the empty frame without a
    message, and the script displays its heading and stops: the page shows
    no error and no advisory. *)
Theorem unresolved_rows_stop_silently
  (sort_values : list Scored -> list Scored)
  (csv : list Listing) (s0 : rng) (w : Widgets) :
  bangalore csv <> [] ->
  (forall r, In r (bangalore csv) -> resolves r = false) ->
  load_data (Some csv) s0 = (Done [], []) /\
  app sort_values (Some csv) s0 w = (Stopped, page_heading).
Proof.
  intros Hne Hno. destruct (enrich_listings s0 Hne) as (out & E & H).
  rewrite (filter_none _ _ Hno) in H. apply map_eq_nil in H. subst out.
  unfold app, load_data. rewrite E. split; reflexivity.
Qed.

End Loader.

Lemma load_data_rows_witness :
  bangalore sample_csv <> [] /\
  exists out,
    @load_data (lcg 0) (Some sample_csv) 7%Z = (Done out, []) /\
    map listing out = filter kept sample_csv.
Proof.
  assert (H : bangalore sample_csv <> []) by discriminate.
  split; [exact H|]. exact (@load_data_rows (lcg 0) sample_csv 7%Z H).
Defined.

Lemma no_city_row_crashes_witness :
  bangalore [row "Bandra West" "Mumbai" 90000] = [] /\
  @app (lcg 0) insertion_sort_desc
       (Some [row "Bandra West" "Mumbai" 90000]) 7%Z default_widgets =
  (Crashed ValueError, []).
Proof.
  assert (H : bangalore [row "Bandra West" "Mumbai" 90000] = [])
    by reflexivity.
  split; [exact H|].
  exact (proj2 (@no_city_row_crashes (lcg 0) insertion_sort_desc _ 7%Z
                  default_widgets H)).
Defined.

Lemma unresolved_rows_stop_silently_witness :
  bangalore [row "Ulsoor" "Bangalore" 18000] <> [] /\
  @app (lcg 0) insertion_sort_desc
       (Some [row "Ulsoor" "Bangalore" 18000]) 7%Z default_widgets =
  (Stopped, page_heading).
Proof.
  assert (H : bangalore [row "Ulsoor" "Bangalore" 18000] <> [])
    by discriminate.
  split; [exact H|].
  refine (proj2 (@unresolved_rows_stop_silently (lcg 0) insertion_sort_desc
                   _ 7%Z default_widgets H _)).
  intros r [<- | []]. reflexivity.
Defined.

(** ** The enriched frame *)

Lemma loc_map_bounds :
  Forall (fun kc : string * (Q * Q) =>
            12.8399 <= fst (snd kc) <= 13.1007 /\
            77.5643 <= snd (snd kc) <= 77.75) loc_map.
Proof.
  unfold loc_map. repeat constructor; discriminate.
Qed.

Section Invariants.
Context {G : RandomState} {L : RandomStateSpec G}.

(** X4.  Every row of the enriched frame has numeric coordinates, and they
    lie in the rectangle of the table entries widened by the jitter:
    latitude from 12.8299 to 13.1107, longitude from 77.5543 to 77.76. *)
Theorem enriched_coordinates_in_box (df : list Listing) (s0 : rng)
  (out : list Enriched) :
  enrich df s0 = Ok out -> Forall (fun e => in_table_box (coords e)) out.
Proof.
  intro E. apply Forall_forall. intros e Hin.
  destruct (enriched_row_simulated df s0 e E Hin)
    as (r & v & -> & _ & Hok & _ & Hres).
  destruct (resolves_first_match _ Hres) as (key & la & lo & Hm).
  destruct (Hok key la lo Hm) as (j1 & j2 & Ec & Hj1 & Hj2).
  destruct Hm as (before & after & Emap & _).
  assert (Hb : In (key, (la, lo)) loc_map)
    by (rewrite Emap; apply in_or_app; right; now left).
  pose proof (proj1 (Forall_forall _ _) loc_map_bounds _ Hb) as [Hla Hlo].
  cbn [fst snd] in Hla, Hlo.
  exists (la + j1), (lo + j2). split; [exact Ec|]. split; lra.
Qed.

(** X5.  Every row of the enriched frame has an amenity density of at
    least its price over 1500 plus 5 and a transit distance from 0.5 to 10;
    so a row with a positive price meets the conditions under which the
    score is monotone. *)
Theorem enriched_records_positive (df : list Listing) (s0 : rng)
  (out : list Enriched) :
  enrich df s0 = Ok out ->
  Forall (fun e =>
            (exists c d : Q,
               Cafes e = Fin c /\ inject_Z (rent e) / 1500 + 5 <= c /\
               Metro_Dist_KM e = Fin d /\ 0.5 <= d <= 10) /\
            ((0 < rent e)%Z -> positive_record e)) out.
Proof.
  intro E. apply Forall_forall. intros e Hin.
  destruct (enriched_row_simulated df s0 e E Hin) as (r & v & -> & Hv & _).
  destruct Hv as ((Ho & _) & _ & Hd1 & Hd2).
  assert (Ec : Cafes (simulated_row r v) =
               Fin (inject_Z (Rent (loc_listing r)) / 1500 + inject_Z (fst v)))
    by reflexivity.
  assert (H5 : 5 <= inject_Z (fst v))
    by (change 5 with (inject_Z 5); now rewrite <- Zle_Qle).
  split.
  - eexists. exists (snd (snd v)). split; [exact Ec|].
    split; [|split; [reflexivity | split; lra]].
    unfold rent. cbn [simulated_row listing]. lra.
  - intro Hp. eexists. exists (snd (snd v)). split; [exact Ec|].
    split; [|split; [reflexivity | split; [lra | exact Hp]]].
    unfold rent in Hp. cbn [simulated_row listing] in Hp.
    assert (0 <= inject_Z (Rent (loc_listing r)) / 1500).
    { apply Qle_shift_div_l; [reflexivity|]. rewrite Qmult_0_l.
      change 0 with (inject_Z 0). rewrite <- Zle_Qle. lia. }
    lra.
Qed.

(** X6.  No enriched record has a safety score above 9.8: for a minimum
    safety above 9.8, which the slider allows up to 10, the preference
    filter keeps no record, whatever the budget. *)
Theorem safety_threshold_above_ceiling (df : list Listing) (s0 : rng)
  (out : list Enriched) (budget : Z) (t : Q) :
  enrich df s0 = Ok out -> 9.8 < t -> filter_preferences budget t out = [].
Proof.
  intros E Ht. rewrite filter_preferences_filter. apply filter_none.
  intros e Hin.
  destruct (enriched_row_simulated df s0 e E Hin) as (r & v & -> & Hv & _).
  destruct Hv as (_ & (_ & Hs) & _).
  apply andb_false_iff. right. unfold geb. cbn [simulated_row Safety_Score leb].
  destruct (Qle_bool t (fst (snd v))) eqn:Q; [|reflexivity].
  apply Qle_bool_iff in Q. lra.
Qed.

End Invariants.

Lemma enriched_coordinates_in_box_witness :
  @enrich (lcg 0) (bangalore sample_csv) 7%Z = Ok sample_enriched /\
  Forall (fun e => in_table_box (coords e)) sample_enriched.
Proof.
  assert (E : @enrich (lcg 0) (bangalore sample_csv) 7%Z = Ok sample_enriched)
    by reflexivity.
  split; [exact E|].
  exact (@enriched_coordinates_in_box (lcg 0) (lcg_spec 0) _ _ _ E).
Defined.

Lemma enriched_records_positive_witness :
  @enrich (lcg 0) (bangalore sample_csv) 7%Z = Ok sample_enriched /\
  Forall (fun e => (0 < rent e)%Z -> positive_record e) sample_enriched.
Proof.
  assert (E : @enrich (lcg 0) (bangalore sample_csv) 7%Z = Ok sample_enriched)
    by reflexivity.
  split; [exact E|].
  eapply Forall_impl;
    [|exact (@enriched_records_positive (lcg 0) (lcg_spec 0) _ _ _ E)].
  intros e H. exact (proj2 H).
Defined.

Lemma safety_threshold_above_ceiling_witness :
  @enrich (lcg 0) (bangalore sample_csv) 7%Z = Ok sample_enriched /\
  9.8 < 10 /\
  filter_preferences 100000 10 sample_enriched = [].
Proof.
  assert (E : @enrich (lcg 0) (bangalore sample_csv) 7%Z = Ok sample_enriched)
    by reflexivity.
  assert (H : 9.8 < 10) by reflexivity.
  split; [exact E|]. split; [exact H|].
  exact (@safety_threshold_above_ceiling (lcg 0) (lcg_spec 0) _ _ _
           100000%Z 10 E H).
Defined.

(** ** The preference filter, further *)

Lemma geb_threshold_relaxed (x : float) (t t' : Q) :
  t' <= t -> geb x (Fin t) = true -> geb x (Fin t') = true.
Proof.
  unfold geb. destruct x as [a| | |]; cbn [leb]; try easy.
  intros Ht H. apply Qle_bool_iff in H. apply Qle_bool_iff. lra.
Qed.

(** X7.  Relaxing the thresholds only adds rows: with a budget at least as
    high and a minimum safety at most as high, every row the filter kept
    is still kept; and the filter never holds more rows than the frame. *)
Theorem filter_preferences_monotone (budget budget' : Z) (t t' : Q)
  (df : list Enriched) :
  (budget <= budget')%Z -> t' <= t ->
  incl (filter_preferences budget t df) (filter_preferences budget' t' df) /\
  (List.length (filter_preferences budget' t' df) <= List.length df)%nat.
Proof.
  intros Hb Ht. rewrite !filter_preferences_filter. split.
  - intros r Hr. apply filter_In in Hr as (Hin & Hr).
    apply andb_true_iff in Hr as (H1 & H2). apply filter_In.
    split; [exact Hin|]. apply andb_true_iff. split.
    + apply Z.leb_le in H1. apply Z.leb_le. lia.
    + eapply geb_threshold_relaxed; eassumption.
  - apply filter_length_le.
Qed.

Lemma filter_preferences_monotone_witness :
  (20000 <= 35000)%Z /\ 7.0 <= 9.0 /\
  incl (filter_preferences 20000 9.0 sample_enriched)
       (filter_preferences 35000 7.0 sample_enriched).
Proof.
  assert (Hb : (20000 <= 35000)%Z) by lia.
  assert (Ht : 7.0 <= 9.0) by discriminate.
  split; [exact Hb|]. split; [exact Ht|].
  exact (proj1 (filter_preferences_monotone sample_enriched Hb Ht)).
Defined.

(** ** Runs of the script on a loaded frame *)

Lemma insert_desc_perm (x : Scored) (l : list Scored) :
  Permutation (x :: l) (insert_desc x l).
Proof.
  induction l as [|y l IH]; simpl; [apply Permutation_refl|].
  destruct (leb (Value_Score y) (Value_Score x)); [apply Permutation_refl|].
  eapply perm_trans; [apply perm_swap|]. now apply perm_skip.
Qed.

Lemma insertion_sort_desc_perm (l : list Scored) :
  Permutation l (insertion_sort_desc l).
Proof.
  induction l as [|x l IH]; simpl; [constructor|].
  eapply perm_trans; [apply perm_skip, IH | apply insert_desc_perm].
Qed.

Section Runs.
Context {G : RandomState}.
Variable sort_values : list Scored -> list Scored.

Lemma app_no_match (csv : list Listing) (s0 : rng) (w : Widgets)
  (df : list Enriched) :
  enrich (bangalore csv) s0 = Ok df -> df <> [] ->
  filter_preferences (budget w) (min_safety w) df = [] ->
  app sort_values (Some csv) s0 w =
  (Done tt,
   page_heading ++ sidebar ++
   [run_filter; st_error_no_apartments (budget w) (min_safety w)]).
Proof.
  intros E Hne HF. unfold app, load_data. rewrite E.
  destruct df as [|e df]; [contradiction|].
  cbn [lift ret bind emit st_stop empty fst snd Datatypes.app negb].
  rewrite HF. reflexivity.
Qed.

(** X8.  When the loaded frame is not empty and the budget is below the
    price of each of its records, the run ends normally: it displays the
    heading, the sidebar and the advisory with the two thresholds, not the
    message of a missing file, and the scorer does not run. *)
Theorem budget_below_prices_advisory (csv : list Listing) (s0 : rng)
  (w : Widgets) (df : list Enriched) :
  enrich (bangalore csv) s0 = Ok df -> df <> [] ->
  (forall e, In e df -> (budget w < rent e)%Z) ->
  app sort_values (Some csv) s0 w =
    (Done tt,
     page_heading ++ sidebar ++
     [run_filter; st_error_no_apartments (budget w) (min_safety w)]) /\
  ~ In st_error_csv_not_found (snd (app sort_values (Some csv) s0 w)) /\
  ~ In run_score (snd (app sort_values (Some csv) s0 w)).
Proof.
  intros E Hne Hb.
  assert (HF : filter_preferences (budget w) (min_safety w) df = []).
  { rewrite filter_preferences_filter. apply filter_none. intros e Hin.
    apply andb_false_iff. left. apply Z.leb_gt. now apply Hb. }
  rewrite (app_no_match csv s0 w E Hne HF).
  split; [reflexivity|]. cbn. intuition discriminate.
Qed.

(** X9.  When some record of the loaded frame passes the thresholds and
    [sort_values] returns the scored rows in non-increasing order of score,
    the run ends normally, without [IndexError]: it displays the heading,
    the sidebar, the three metrics of the first row of the sorted frame,
    and the two charts and the table on that one sorted frame; the first
    row is a scored row whose score no other row exceeds. *)
Theorem run_shows_ranking (csv : list Listing) (s0 : rng) (w : Widgets)
  (df : list Enriched) :
  enrich (bangalore csv) s0 = Ok df ->
  filter_preferences (budget w) (min_safety w) df <> [] ->
  sorted_descending
    (assign_Value_Score (w_cafe w) (w_metro w)
       (filter_preferences (budget w) (min_safety w) df))
    (sort_values
       (assign_Value_Score (w_cafe w) (w_metro w)
          (filter_preferences (budget w) (min_safety w) df))) ->
  exists best rest,
    sort_values
      (assign_Value_Score (w_cafe w) (w_metro w)
         (filter_preferences (budget w) (min_safety w) df)) = best :: rest /\
    app sort_values (Some csv) s0 w =
      (Done tt,
       page_heading ++ sidebar ++ [run_filter; run_score] ++ ranking best rest) /\
    In best (assign_Value_Score (w_cafe w) (w_metro w)
               (filter_preferences (budget w) (min_safety w) df)) /\
    Forall (fun r => le (Value_Score r) (Value_Score best)) rest.
Proof.
  intros E HF (Hperm & Hsorted).
  assert (Hne : df <> []).
  { intro E0. apply HF. now rewrite E0. }
  remember (filter_preferences (budget w) (min_safety w) df) as filtered
    eqn:Ef.
  assert (Hs : assign_Value_Score (w_cafe w) (w_metro w) filtered <> []).
  { rewrite assign_Value_Score_rows. destruct filtered; [contradiction|].
    discriminate. }
  destruct (sort_values (assign_Value_Score (w_cafe w) (w_metro w) filtered))
    as [|best rest] eqn:Es.
  { apply Permutation_sym, Permutation_nil in Hperm. contradiction. }
  exists best, rest. split; [reflexivity|]. split; [|split].
  - unfold app, load_data. rewrite E.
    destruct df as [|e df]; [contradiction|].
    cbn [lift ret bind emit st_stop empty fst snd Datatypes.app negb].
    rewrite <- Ef. destruct filtered as [|f filtered]; [contradiction|].
    cbn [empty negb]. rewrite Es. reflexivity.
  - eapply Permutation_in; [apply Permutation_sym, Hperm | now left].
  - now inversion Hsorted.
Qed.

End Runs.

Lemma budget_below_prices_advisory_witness :
  @enrich (lcg 0) (bangalore sample_csv) 7%Z = Ok sample_enriched /\
  @app (lcg 0) insertion_sort_desc (Some sample_csv) 7%Z
       {| budget := 5000; min_safety := 7.0; w_cafe := 0.5; w_metro := 0.8 |} =
  (Done tt,
   page_heading ++ sidebar ++ [run_filter; st_error_no_apartments 5000 7.0]).
Proof.
  assert (E : @enrich (lcg 0) (bangalore sample_csv) 7%Z = Ok sample_enriched)
    by reflexivity.
  split; [exact E|].
  refine (proj1 (@budget_below_prices_advisory (lcg 0) insertion_sort_desc
                   sample_csv 7%Z
                   {| budget := 5000; min_safety := 7.0;
                      w_cafe := 0.5; w_metro := 0.8 |}
                   sample_enriched E _ _)).
  - discriminate.
  - intros e [<- | [<- | [<- | []]]]; reflexivity.
Defined.

Lemma run_shows_ranking_witness :
  @enrich (lcg 0) (bangalore sample_csv) 7%Z = Ok sample_enriched /\
  exists best rest,
    insertion_sort_desc
      (assign_Value_Score 0.5 0.8
         (filter_preferences 35000 7.0 sample_enriched)) = best :: rest /\
    @app (lcg 0) insertion_sort_desc (Some sample_csv) 7%Z default_widgets =
      (Done tt,
       page_heading ++ sidebar ++ [run_filter; run_score] ++ ranking best rest) /\
    In best (assign_Value_Score 0.5 0.8
               (filter_preferences 35000 7.0 sample_enriched)) /\
    Forall (fun r => le (Value_Score r) (Value_Score best)) rest.
Proof.
  assert (E : @enrich (lcg 0) (bangalore sample_csv) 7%Z = Ok sample_enriched)
    by reflexivity.
  split; [exact E|].
  refine (@run_shows_ranking (lcg 0) insertion_sort_desc sample_csv 7%Z
            default_widgets sample_enriched E _ _).
  - discriminate.
  - split; [apply insertion_sort_desc_perm|].
    vm_compute. repeat constructor.
Defined.

(** ** The value score, further *)

Lemma positive_record_price (r : Enriched) :
  positive_record r -> 0 < inject_Z (rent r) / 1000.
Proof.
  intros (c & d & _ & _ & _ & _ & Hp). now apply price_in_thousands_pos.
Qed.

(** X10.  With both weights at zero, which the sliders allow, every record
    with positive price, non-negative amenity density and positive transit
    distance scores zero: all records tie, and the order of the ranking is
    left to the sort. *)
Theorem zero_weights_all_tie (df : list Enriched) :
  Forall positive_record df ->
  Forall is_zero (Value_Score_column 0 0 df).
Proof.
  intro H. rewrite Value_Score_column_rows. apply Forall_map.
  eapply Forall_impl; [|exact H].
  intros r (c & d & Hc & Hc0 & Hd & Hd0 & Hp).
  rewrite (positive_record_score 0 0 r Hc Hd Hd0 Hp).
  assert (HP : 0 < inject_Z (rent r))
    by (change 0 with (inject_Z 0); now rewrite <- Zlt_Qlt).
  eexists. split; [reflexivity|]. field. split; intro Z0; lra.
Qed.

Lemma zero_weights_all_tie_witness :
  Forall positive_record [scenario_row; scenario_at 40000 2.0] /\
  Forall is_zero (Value_Score_column 0 0 [scenario_row; scenario_at 40000 2.0]).
Proof.
  assert (H : Forall positive_record [scenario_row; scenario_at 40000 2.0]).
  { repeat constructor; exists 20, 2.0; repeat split;
      try reflexivity; discriminate. }
  split; [exact H|]. exact (zero_weights_all_tie H).
Defined.

Lemma Forall2_map_rel {A B : Type} (S : A -> A -> Prop) (R : B -> B -> Prop)
  (f g : A -> B) (l l' : list A) :
  Forall2 S l l' -> (forall x y, S x y -> R (f x) (g y)) ->
  Forall2 R (map f l) (map g l').
Proof.
  intros H HR. induction H; simpl; constructor; auto.
Qed.

(** X11.  With non-negative weights, on records with non-negative amenity
    density, positive transit distance and positive price, the score of
    every record does not decrease when its amenity density grows and does
    not increase when its transit distance grows, the other fields being
    the same. *)
Theorem value_score_monotone_in_fields (wc wm : Q) (df df' : list Enriched) :
  0 <= wc -> 0 <= wm -> Forall positive_record df ->
  (Forall2 more_amenities df df' ->
   Forall2 le (Value_Score_column wc wm df) (Value_Score_column wc wm df')) /\
  (Forall2 farther df df' ->
   Forall2 le (Value_Score_column wc wm df') (Value_Score_column wc wm df)).
Proof.
  intros Hwc Hwm Hpos. rewrite !Value_Score_column_rows. split; intro H2.
  - assert (H3 : Forall2 (fun r r' => positive_record r /\ more_amenities r r')
                         df df').
    { clear - Hpos H2. induction H2; constructor.
      - split; [now inversion Hpos | assumption].
      - apply IHForall2. now inversion Hpos. }
    apply Forall2_map_rel with (1 := H3).
    intros r r' (Hr & (c0 & c' & Ec & Ec' & Hcc & Em & Er)).
    pose proof (positive_record_price Hr) as HP.
    destruct Hr as (c & d & Hc & Hc0 & Hd & Hd0 & Hp).
    rewrite Hc in Ec. injection Ec as <-.
    rewrite Hd in Em.
    assert (Hp' : (0 < rent r')%Z) by now rewrite Er.
    rewrite (positive_record_score wc wm r Hc Hd Hd0 Hp).
    rewrite (positive_record_score wc wm r' Ec' Em Hd0 Hp'), Er.
    apply le_Fin, Qdiv_le_compat_r; [exact HP|]. nra.
  - assert (H3 : Forall2 (fun r r' => positive_record r /\ farther r r') df df').
    { clear - Hpos H2. induction H2; constructor.
      - split; [now inversion Hpos | assumption].
      - apply IHForall2. now inversion Hpos. }
    apply Forall2_flip.
    apply Forall2_map_rel with (1 := H3).
    intros r r' (Hr & (d0 & d' & Ed & Ed' & Hdd & Ec & Er)).
    pose proof (positive_record_price Hr) as HP.
    destruct Hr as (c & d & Hc & Hc0 & Hd & Hd0 & Hp).
    rewrite Hd in Ed. injection Ed as <-.
    rewrite Hc in Ec.
    assert (Hp' : (0 < rent r')%Z) by now rewrite Er.
    assert (Hd0' : 0 < d') by lra.
    rewrite (positive_record_score wc wm r Hc Hd Hd0 Hp).
    rewrite (positive_record_score wc wm r' Ec Ed' Hd0' Hp'), Er.
    apply le_Fin, Qdiv_le_compat_r; [exact HP|].
    assert (Hi : 1 / d' <= 1 / d)
      by (apply Qdiv_le_antitone; [discriminate | assumption | assumption]).
    assert (Hi0 : 0 < 1 / d') by (apply Qlt_shift_div_l; lra).
    generalize dependent (1 / d'). generalize dependent (1 / d).
    intros a b Hab Hb. nra.
Qed.

Lemma value_score_monotone_in_fields_witness :
  Forall2 le (Value_Score_column 0.5 0.8 [scenario_at 30000 9.0])
             (Value_Score_column 0.5 0.8 [scenario_row]).
Proof.
  assert (H : Forall positive_record [scenario_row])
    by (constructor; [exact scenario_row_positive | constructor]).
  refine (proj2 (@value_score_monotone_in_fields 0.5 0.8 [scenario_row]
                   [scenario_at 30000 9.0] _ _ H) _);
    try discriminate.
  constructor; [|constructor].
  exists 2.0, 9.0. repeat split. discriminate.
Defined.





(** ** Case of the locality text *)

Lemma lower_ascii_idempotent (c : ascii) :
  lower_ascii (lower_ascii c) = lower_ascii c.
Proof.
  destruct c as [[] [] [] [] [] [] [] []]; reflexivity.
Qed.

Lemma lower_idempotent (s : string) : lower (lower s) = lower s.
Proof.
  induction s as [|c s IH]; simpl; [reflexivity|].
  now rewrite lower_ascii_idempotent, IH.
Qed.

Section Case.
Context {G : RandomState}.

Lemma get_coords_from_lower keys (a b : string) (s : rng) :
  lower a = lower b -> get_coords_from keys a s = get_coords_from keys b s.
Proof.
  intro E. induction keys as [|[key [la lo]] rest IH]; simpl; [reflexivity|].
  now rewrite E, IH.
Qed.

(** X13.  [get_coords] does not tell apart two texts that differ in the
    case of their letters only: they get the same coordinates from the same
    draws and leave the generator in the same state; in particular a text
    and its lower-case form. *)
Theorem get_coords_ignores_case (a b : string) (s : rng) :
  lower a = lower b ->
  get_coords a s = get_coords b s /\ get_coords (lower a) s = get_coords a s.
Proof.
  intro E. split.
  - now apply get_coords_from_lower.
  - apply get_coords_from_lower, lower_idempotent.
Qed.

End Case.

Lemma get_coords_ignores_case_witness :
  lower "HSR LAYOUT, Sector 2" = lower "hsr layout, sector 2" /\
  @get_coords (lcg 0) "HSR LAYOUT, Sector 2" 7%Z =
  @get_coords (lcg 0) "hsr layout, sector 2" 7%Z.
Proof.
  assert (E : lower "HSR LAYOUT, Sector 2" = lower "hsr layout, sector 2")
    by reflexivity.
  split; [exact E|].
  exact (proj1 (@get_coords_ignores_case (lcg 0) _ _ 7%Z E)).
Defined.

(** ** What the ranking displays *)

(** X14.  Whatever order [sort_values] returns the scored rows in, the
    frame the metrics, charts and table are drawn from has as many rows as
    passed the filter, and each of them is a row of the loaded frame, within
    budget, at or above the minimum safety, with the score of the formula:
    no listing over budget is ever displayed. *)
Theorem displayed_rows_within_thresholds
  (sort_values : list Scored -> list Scored) (w : Widgets)
  (df : list Enriched) :
  Permutation
    (assign_Value_Score (w_cafe w) (w_metro w)
       (filter_preferences (budget w) (min_safety w) df))
    (sort_values
       (assign_Value_Score (w_cafe w) (w_metro w)
          (filter_preferences (budget w) (min_safety w) df))) ->
  List.length
    (sort_values
       (assign_Value_Score (w_cafe w) (w_metro w)
          (filter_preferences (budget w) (min_safety w) df))) =
  List.length (filter_preferences (budget w) (min_safety w) df) /\
  Forall (fun r =>
            In (enriched r) df /\
            (rent (enriched r) <= budget w)%Z /\
            ge (Safety_Score (enriched r)) (Fin (min_safety w)) /\
            Value_Score r =
            row_value_score (w_cafe w) (w_metro w) (enriched r))
         (sort_values
            (assign_Value_Score (w_cafe w) (w_metro w)
               (filter_preferences (budget w) (min_safety w) df))).
Proof.
  intro Hperm. split.
  - rewrite <- (Permutation_length Hperm), assign_Value_Score_rows.
    apply length_map.
  - apply Forall_forall. intros r Hr.
    apply (Permutation_in _ (Permutation_sym Hperm)) in Hr.
    rewrite assign_Value_Score_rows in Hr.
    apply in_map_iff in Hr as (e & <- & He).
    rewrite filter_preferences_filter in He.
    apply filter_In in He as (Hin & Hc).
    apply andb_true_iff in Hc as (H1 & H2). apply Z.leb_le in H1.
    cbn [enriched Value_Score]. auto.
Qed.

Lemma displayed_rows_within_thresholds_witness :
  List.length
    (insertion_sort_desc
       (assign_Value_Score 0.5 0.8
          (filter_preferences 25000 7.0 sample_enriched))) =
  List.length (filter_preferences 25000 7.0 sample_enriched).
Proof.
  exact (proj1 (@displayed_rows_within_thresholds insertion_sort_desc
                  {| budget := 25000; min_safety := 7.0;
                     w_cafe := 0.5; w_metro := 0.8 |}
                  sample_enriched (insertion_sort_desc_perm _))).
Defined.

Section Floor.
Context {G : RandomState} {L : RandomStateSpec G}.

(** X15.  As the amenity density holds the price over 1500, the price
    cancels in the amenity part of the score: with non-negative weights,
    every enriched record with a positive price scores at least two thirds
    of the amenity weight, however high its price. *)
Theorem enriched_score_floor (df : list Listing) (s0 : rng)
  (out : list Enriched) (wc wm : Q) (budget : Z) (t : Q) :
  enrich df s0 = Ok out -> 0 <= wc -> 0 <= wm ->
  Forall (fun sc =>
            (0 < rent (enriched sc))%Z ->
            exists q : Q, Value_Score sc = Fin q /\ (2 # 3) * wc <= q)
         (assign_Value_Score wc wm (filter_preferences budget t out)).
Proof.
  intros E Hwc Hwm. apply Forall_forall. intros sc Hin Hp.
  rewrite assign_Value_Score_rows in Hin.
  apply in_map_iff in Hin as (e & <- & Hin).
  rewrite filter_preferences_filter in Hin. apply filter_In in Hin as (Hin & _).
  cbn [enriched Value_Score] in *.
  destruct (enriched_row_simulated df s0 e E Hin) as (r & v & -> & Hv & _).
  destruct Hv as ((Ho & _) & _ & Hd1 & Hd2).
  assert (Ec : Cafes (simulated_row r v) =
               Fin (inject_Z (Rent (loc_listing r)) / 1500 + inject_Z (fst v)))
    by reflexivity.
  assert (Hd0 : 0 < snd (snd v)) by lra.
  rewrite (positive_record_score wc wm (simulated_row r v) Ec eq_refl Hd0 Hp).
  eexists. split; [reflexivity|].
  unfold rent in *. cbn [simulated_row listing] in *.
  assert (HR : 0 < inject_Z (Rent (loc_listing r)))
    by (change 0 with (inject_Z 0); now rewrite <- Zlt_Qlt).
  assert (H5 : 5 <= inject_Z (fst v))
    by (change 5 with (inject_Z 5); now rewrite <- Zle_Qle).
  apply Qle_shift_div_l; [now apply price_in_thousands_pos|].
  assert (Hi : 0 < 1 / snd (snd v)) by (apply Qlt_shift_div_l; lra).
  generalize dependent (1 / snd (snd v)). intros a Ha.
  assert (E1 : (2 # 3) * wc * (inject_Z (Rent (loc_listing r)) / 1000) ==
               inject_Z (Rent (loc_listing r)) / 1500 * wc) by field.
  rewrite E1.
  generalize dependent (inject_Z (Rent (loc_listing r)) / 1500). intros b.
  generalize dependent (inject_Z (fst v)). intros o Ho5.
  intros _. nra.
Qed.

End Floor.

Lemma enriched_score_floor_witness :
  @enrich (lcg 0) (bangalore sample_csv) 7%Z = Ok sample_enriched /\
  Forall (fun sc =>
            (0 < rent (enriched sc))%Z ->
            exists q : Q, Value_Score sc = Fin q /\ (2 # 3) * 0.5 <= q)
         (assign_Value_Score 0.5 0.8
            (filter_preferences 35000 7.0 sample_enriched)).
Proof.
  assert (E : @enrich (lcg 0) (bangalore sample_csv) 7%Z = Ok sample_enriched)
    by reflexivity.
  split; [exact E|].
  refine (@enriched_score_floor (lcg 0) (lcg_spec 0) _ _ _ 0.5 0.8
            35000%Z 7.0 E _ _); discriminate.
Defined.
